(** * Reconcilers of the Incus network modules

    A shallow embedding of the five Ansible modules
    [plugins/modules/incus_network_{acl,zone,peer,forward,load_balancer}.py]:
    the Python values they move around, the REST client they call, the object
    state they mutate ([self.diff], [self.actions]) and the [run] method that
    reads, converges, re-reads and reports. *)

From Stdlib Require Import String Ascii ZArith List Bool Lia DecimalString.
Import ListNotations.
Open Scope string_scope.
Open Scope Z_scope.

Set Implicit Arguments.
Set Warnings "-register-all".

(** ** Python values *)

(** The JSON-shaped values that flow through the modules: module parameters,
    request payloads and response bodies.  A [dict] keeps its items in
    insertion order, as Python does; the keys are strings, as JSON has them.
    Floating-point numbers are left out. *)
#[local] Unset Elimination Schemes.
Inductive pyval : Type :=
| PNone
| PBool (b : bool)
| PInt (z : Z)
| PStr (s : string)
| PList (l : list pyval)
| PDict (d : list (string * pyval)).
#[local] Set Elimination Schemes.

Definition dict : Type := list (string * pyval).

(** [d[k]] read: the value stored under [k], [None] for a [KeyError]. *)
Fixpoint dict_get (k : string) (d : dict) : option pyval :=
  match d with
  | [] => None
  | (k', v) :: d' => if String.eqb k k' then Some v else dict_get k d'
  end.

(** [d[k] = v]: an existing key keeps its position, a new key goes last. *)
Fixpoint dict_set (k : string) (v : pyval) (d : dict) : dict :=
  match d with
  | [] => [(k, v)]
  | (k', v') :: d' =>
      if String.eqb k k' then (k', v) :: d' else (k', v') :: dict_set k v d'
  end.

Definition dict_keys (d : dict) : list string := map fst d.

(** Python's [==] on these values.  [bool] is a subclass of [int], so
    [True == 1]; lists compare element-wise; two dicts are equal when they
    have as many items and every item of the first has an equal item under
    the same key in the second. *)
Fixpoint py_eq (a b : pyval) {struct a} : bool :=
  match a, b with
  | PNone, PNone => true
  | PBool x, PBool y => Bool.eqb x y
  | PBool x, PInt z => Z.eqb (Z.b2z x) z
  | PInt z, PBool x => Z.eqb z (Z.b2z x)
  | PInt x, PInt y => Z.eqb x y
  | PStr s, PStr t => String.eqb s t
  | PList l1, PList l2 =>
      (fix list_eq (l1 l2 : list pyval) {struct l1} : bool :=
         match l1, l2 with
         | [], [] => true
         | x :: l1', y :: l2' => py_eq x y && list_eq l1' l2'
         | _, _ => false
         end) l1 l2
  | PDict d1, PDict d2 =>
      Nat.eqb (length d1) (length d2)
      && forallb
           (fun kv : string * pyval =>
              let (k, v) := kv in
              existsb
                (fun kv' : string * pyval =>
                   let (k', v') := kv' in String.eqb k k' && py_eq v v')
                d2)
           d1
  | _, _ => false
  end.

(** Python's [!=]. *)
Definition py_ne (a b : pyval) : bool := negb (py_eq a b).

(** Truth value of an object, as [if x:] and [x or y] test it. *)
Definition py_truthy (v : pyval) : bool :=
  match v with
  | PNone => false
  | PBool b => b
  | PInt z => negb (Z.eqb z 0)
  | PStr s => negb (String.eqb s EmptyString)
  | PList l => match l with [] => false | _ => true end
  | PDict d => match d with [] => false | _ => true end
  end.

(** [x or y]. *)
Definition py_or (x y : pyval) : pyval := if py_truthy x then x else y.

(** [', '.join(l)] *)
Fixpoint join_comma (l : list string) : string :=
  match l with
  | [] => EmptyString
  | [s] => s
  | s :: l' => s ++ ", " ++ join_comma l'
  end.

Section Builtins.

(** [repr] of a [str] object: the quoting and escaping Python applies
    there depends on the characters of the string (which quote it holds,
    which code points are printable) and is taken as given. *)
Variable repr_str : string -> string.

Definition str_of_Z (z : Z) : string := NilZero.string_of_int (Z.to_int z).

(** [repr(v)] *)
Fixpoint py_repr (v : pyval) : string :=
  match v with
  | PNone => "None"
  | PBool b => if b then "True" else "False"
  | PInt z => str_of_Z z
  | PStr s => repr_str s
  | PList l => "[" ++ join_comma (map py_repr l) ++ "]"
  | PDict d =>
      "{" ++ join_comma
               (map (fun kv : string * pyval =>
                       let (k, x) := kv in repr_str k ++ ": " ++ py_repr x) d)
          ++ "}"
  end.

(** [str(v)]: a string is returned as it is, everything else prints as
    its [repr]. *)
Definition py_str (v : pyval) : string :=
  match v with
  | PStr s => s
  | _ => py_repr v
  end.

End Builtins.

(** ** Exceptions and results *)

(** The exceptions the modules can meet: the client's typed exception,
    a missing dict key, and the bare [Exception] the modules raise
    themselves. *)
Inductive exn : Type :=
| IncusClientException (msg : string)
| KeyError (key : string)
| Exception (msg : string).

Inductive result (A : Type) : Type :=
| Ok (a : A)
| Raise (e : exn).
Arguments Ok {A} a.
Arguments Raise {A} e.

(** [d[k]] as an expression. *)
Definition subscript (d : dict) (k : string) : result pyval :=
  match dict_get k d with
  | Some v => Ok v
  | None => Raise (KeyError k)
  end.

(** ** The REST client

    [IncusClient] lives in [module_utils/incuscli], outside these modules.
    What the modules use of it is taken as given: [query_raw], which answers
    with the decoded response body or raises [IncusClientException]; the
    [logs] and [debug] attributes.  [World] is whatever the remote side and
    the client keep between two calls. *)

Inductive method : Type := GET | POST | PATCH | DELETE.

(** The arguments of one [query_raw] call; [None] for a keyword argument
    the call site does not pass. *)
Record request : Type := {
  req_method : method;
  req_url : string;
  req_payload : option dict;
  req_ok_errors : option (list Z)
}.

Record IncusClient : Type := {
  World : Type;
  query_raw : request -> World -> (dict + string) * World;
  logs : World -> pyval;
  debug : bool
}.

Definition is_write (m : method) : bool :=
  match m with GET => false | _ => true end.

(** ** The module object *)

(** [self.module]: the check-mode flag and the verbosity of the run. *)
Record AnsibleModule : Type := {
  check_mode : bool;
  _verbosity : Z
}.

(** [self.diff], a dict with the two fixed keys ['before'] and ['after']. *)
Record diff_t : Type := {
  before : dict;
  after : dict
}.

(** [self.state], one of the two [choices] of the argument spec. *)
Inductive desired : Type := present | absent.

Section Manager.

Variable C : IncusClient.

(** The mutable part of a manager object: [self.diff], [self.actions]
    (only the peer module has it) and the client's side of the world.
    [calls] is the trace of the requests issued so far, each with its
    answer; it is not a field of the Python object. *)
Record self_t : Type := {
  diff : diff_t;
  actions : list string;
  world : World C;
  calls : list (request * (dict + string))
}.

(** The object as [__init__] leaves it. *)
Definition init (w : World C) : self_t :=
  {| diff := {| before := []; after := [] |};
     actions := [];
     world := w;
     calls := [] |}.

(** A method body: it reads and updates the object and returns or
    raises. *)
Definition M (A : Type) : Type := self_t -> result A * self_t.

Definition ret {A} (a : A) : M A := fun s => (Ok a, s).

Definition raise {A} (e : exn) : M A := fun s => (Raise e, s).

Definition bind {A B} (m : M A) (f : A -> M B) : M B :=
  fun s =>
    match m s with
    | (Ok a, s') => f a s'
    | (Raise e, s') => (Raise e, s')
    end.

Definition lift {A} (r : result A) : M A := fun s => (r, s).

(** [self.diff['before'][k] = v] *)
Definition set_before (k : string) (v : pyval) : M unit :=
  fun s =>
    (Ok tt,
     {| diff := {| before := dict_set k v (before (diff s));
                   after := after (diff s) |};
        actions := actions s; world := world s; calls := calls s |}).

(** [self.diff['after'][k] = v] *)
Definition set_after (k : string) (v : pyval) : M unit :=
  fun s =>
    (Ok tt,
     {| diff := {| before := before (diff s);
                   after := dict_set k v (after (diff s)) |};
        actions := actions s; world := world s; calls := calls s |}).

(** [self.diff['before'][k]] *)
Definition get_before (k : string) : M pyval :=
  fun s => (subscript (before (diff s)) k, s).

(** [self.diff['after'][k]] *)
Definition get_after (k : string) : M pyval :=
  fun s => (subscript (after (diff s)) k, s).

(** [self.actions.append(a)] *)
Definition append_action (a : string) : M unit :=
  fun s =>
    (Ok tt,
     {| diff := diff s; actions := actions s ++ [a];
        world := world s; calls := calls s |}).

(** [self.client.query_raw(...)]: the call reaches the client, its
    answer is recorded in the trace, and an [IncusClientException]
    propagates. *)
Definition client_query_raw (req : request) : M dict :=
  fun s =>
    let (r, w') := query_raw C req (world s) in
    let s' := {| diff := diff s; actions := actions s; world := w';
                 calls := calls s ++ [(req, r)] |} in
    match r with
    | inl resp => (Ok resp, s')
    | inr msg => (Raise (IncusClientException msg), s')
    end.

End Manager.

Arguments ret {C A} a.
Arguments raise {C A} e.
Arguments bind {C A B} m f.
Arguments lift {C A} r.
Arguments set_before {C} k v.
Arguments set_after {C} k v.
Arguments get_before {C} k.
Arguments get_after {C} k.
Arguments append_action {C} a.
Arguments client_query_raw {C} req.

Declare Scope py_scope.
Delimit Scope py_scope with py.
Notation "x <- m ;; k" := (bind m (fun x => k))
  (at level 100, m at next level, right associativity) : py_scope.
Notation "m ;; k" := (bind m (fun _ => k))
  (at level 100, right associativity) : py_scope.
Open Scope py_scope.

(** [_incus_to_module_state(resp_json)], the same function in the five
    modules. *)
Definition _incus_to_module_state (resp_json : dict) : result string :=
  match subscript resp_json "status_code" with
  | Raise e => Raise e
  | Ok status_code =>
      if py_eq status_code (PInt 200) then Ok "present"
      else
        match subscript resp_json "error_code" with
        | Raise e => Raise e
        | Ok error_code =>
            if py_eq error_code (PInt 404) then Ok "absent"
            else Raise (Exception "unknown resource state")
        end
  end.

(** ** What a run reports *)

(** The keyword arguments of [module.exit_json]; [resource] is the entry
    stored under the kind's own key (['acl'], ['zone'], ...). *)
Record result_json : Type := {
  log_verbosity : Z;
  changed : bool;
  old_state : pyval;
  result_diff : diff_t;
  resource : string * pyval;
  result_logs : option pyval
}.

(** The keyword arguments of [module.fail_json]. *)
Record fail_params : Type := {
  msg : string;
  fail_changed : bool;
  fail_diff : diff_t;
  fail_logs : option pyval
}.

(** How [run] ends: through [exit_json], through [fail_json], or with an
    exception nobody caught. *)
Inductive outcome : Type :=
| exit_json (r : result_json)
| fail_json (f : fail_params)
| uncaught (e : exn).

(** The [changed] flag the caller receives, when it receives a record. *)
Definition reported_changed (o : outcome) : option bool :=
  match o with
  | exit_json r => Some (changed r)
  | fail_json f => Some (fail_changed f)
  | uncaught _ => None
  end.

(** ** [run]

    The method is the same text in the five classes, up to the name of the
    getter, the handlers behind [ACTION_DISPATCH] and the key of the
    resource in the diff and in the result. *)
Section Run.

Variable C : IncusClient.
Variable module : AnsibleModule.
Variable key : string.
Variable _get : M C dict.
Variable action : M C pyval.

(** [self.debug = self.module._verbosity >= 3] *)
Definition self_debug : bool := 3 <=? _verbosity module.

(** The body of the [try] block, up to the arguments of [exit_json]. *)
Definition run_try : M C result_json :=
  current <- _get ;;
  metadata <- lift (subscript current "metadata") ;;
  set_before key metadata ;;
  st <- lift (_incus_to_module_state current) ;;
  set_before "state" (PStr st) ;;
  action ;;
  current <- _get ;;
  metadata <- lift (subscript current "metadata") ;;
  set_after key metadata ;;
  st <- lift (_incus_to_module_state current) ;;
  set_after "state" (PStr st) ;;
  b <- get_before key ;;
  a <- get_after key ;;
  let state_changed := py_ne b a in
  old <- get_before "state" ;;
  res <- get_after key ;;
  fun s =>
    (Ok {| log_verbosity := _verbosity module;
           changed := state_changed;
           old_state := old;
           result_diff := diff s;
           resource := (key, res);
           result_logs :=
             if self_debug then Some (logs C (world s)) else None |},
     s).

(** [run]: the [try] block and its [except IncusClientException]. *)
Definition run (s : self_t C) : outcome * self_t C :=
  match run_try s with
  | (Ok r, s') => (exit_json r, s')
  | (Raise (IncusClientException m), s') =>
      (fail_json {| msg := m;
                    fail_changed := false;
                    fail_diff := diff s';
                    fail_logs :=
                      if debug C then Some (logs C (world s')) else None |},
       s')
  | (Raise e, s') => (uncaught e, s')
  end.

End Run.

(** ** incus_network_acl.py *)
Module Acl.

(** [module.params], typed by the [argument_spec]. *)
Record params : Type := {
  name : string;
  project : string;
  description : pyval;
  config : pyval;
  ingress : pyval;
  egress : pyval;
  state : desired
}.

Section Methods.
Variable C : IncusClient.
Variable module : AnsibleModule.
Variable self : params.

Definition _get_acl : M C dict :=
  let url := "/1.0/network-acls/" ++ name self in
  client_query_raw
    {| req_method := GET; req_url := url;
       req_payload := None; req_ok_errors := Some [404] |}.

Definition payload : dict :=
  [ ("name", PStr (name self));
    ("config", config self);
    ("description", description self);
    ("egress", egress self);
    ("ingress", ingress self) ].

Definition _present : M C pyval :=
  st <- get_before "state" ;;
  let method := if py_eq st (PStr "present") then PATCH else POST in
  let payload := payload in
  url <- match method with
         | POST => ret "/1.0/network-acls"
         | PATCH => ret ("/1.0/network-acls/" ++ name self)
         | _ => raise (Exception "invalid state")
         end ;;
  if negb (check_mode module) then
    resp <- client_query_raw
              {| req_method := method; req_url := url;
                 req_payload := Some payload; req_ok_errors := None |} ;;
    ret (PDict resp)
  else ret PNone.

Definition _absent : M C pyval :=
  st <- get_before "state" ;;
  if py_eq st (PStr "absent") then ret PNone
  else
    let url := "/1.0/network-acls/" ++ name self in
    if negb (check_mode module) then
      resp <- client_query_raw
                {| req_method := DELETE; req_url := url;
                   req_payload := None; req_ok_errors := None |} ;;
      ret (PDict resp)
    else ret PNone.

(** [getattr(self, ACTION_DISPATCH[self.state])] *)
Definition action : M C pyval :=
  match state self with
  | present => _present
  | absent => _absent
  end.

Definition run : self_t C -> outcome * self_t C :=
  run module "acl" _get_acl action.

End Methods.
End Acl.

(** ** incus_network_zone.py *)
Module Zone.

Record params : Type := {
  name : string;
  project : string;
  description : pyval;
  config : pyval;
  state : desired
}.

Section Methods.
Variable C : IncusClient.
Variable module : AnsibleModule.
Variable self : params.

Definition _get_network_zone : M C dict :=
  let url := "/1.0/network-zones/" ++ name self in
  client_query_raw
    {| req_method := GET; req_url := url;
       req_payload := None; req_ok_errors := Some [404] |}.

Definition payload : dict :=
  [ ("name", PStr (name self));
    ("description", description self);
    ("config", config self) ].

Definition _present : M C pyval :=
  st <- get_before "state" ;;
  let method := if py_eq st (PStr "present") then PATCH else POST in
  let payload := payload in
  url <- match method with
         | POST => ret "/1.0/network-zones"
         | PATCH => ret ("/1.0/network-zones/" ++ name self)
         | _ => raise (Exception "invalid state")
         end ;;
  if negb (check_mode module) then
    resp <- client_query_raw
              {| req_method := method; req_url := url;
                 req_payload := Some payload; req_ok_errors := None |} ;;
    ret (PDict resp)
  else ret PNone.

Definition _absent : M C pyval :=
  st <- get_before "state" ;;
  if py_eq st (PStr "absent") then ret PNone
  else
    let url := "/1.0/network-zones/" ++ name self in
    if negb (check_mode module) then
      resp <- client_query_raw
                {| req_method := DELETE; req_url := url;
                   req_payload := None; req_ok_errors := None |} ;;
      ret (PDict resp)
    else ret PNone.

Definition action : M C pyval :=
  match state self with
  | present => _present
  | absent => _absent
  end.

Definition run : self_t C -> outcome * self_t C :=
  run module "zone" _get_network_zone action.

End Methods.
End Zone.

(** [method == 'POST'] *)
Definition is_POST (m : method) : bool :=
  match m with POST => true | _ => false end.

(** ** incus_network_peer.py *)
Module Peer.

Record params : Type := {
  name : string;
  network : string;
  target_network : string;
  description : pyval;
  config : pyval;
  type : pyval;
  target_integration : pyval;
  target_project : pyval;
  project : string;
  state : desired
}.

Section Methods.
Variable C : IncusClient.
Variable module : AnsibleModule.
Variable self : params.

Definition _get_peer : M C dict :=
  let url := "/1.0/networks/" ++ network self ++ "/peers/" ++ name self in
  client_query_raw
    {| req_method := GET; req_url := url;
       req_payload := None; req_ok_errors := Some [404] |}.

Definition _get_peers : M C dict :=
  let url := "/1.0/networks/" ++ network self ++ "/peers" in
  client_query_raw
    {| req_method := GET; req_url := url;
       req_payload := None; req_ok_errors := Some [404] |}.

Definition payload : dict :=
  let payload :=
    [ ("name", PStr (name self));
      ("config", config self);
      ("description", description self) ] in
  let payload :=
    if py_truthy (PStr (target_network self)) then
      let payload :=
        dict_set "target_network" (PStr (target_network self)) payload in
      if py_truthy (target_project self) then
        dict_set "target_project" (target_project self) payload
      else payload
    else payload in
  let payload :=
    if py_truthy (target_integration self) then
      dict_set "target_integration" (target_integration self) payload
    else payload in
  if py_truthy (type self) then dict_set "type" (type self) payload
  else payload.

Definition _present : M C pyval :=
  st <- get_before "state" ;;
  let method := if py_eq st (PStr "present") then PATCH else POST in
  let payload := payload in
  let url :=
    if is_POST method then "/1.0/networks/" ++ network self ++ "/peers"
    else "/1.0/networks/" ++ network self ++ "/peers/" ++ name self in
  res <- (if negb (check_mode module) then
            resp <- client_query_raw
                      {| req_method := method; req_url := url;
                         req_payload := Some payload;
                         req_ok_errors := None |} ;;
            ret (PDict resp)
          else ret PNone) ;;
  append_action (if is_POST method then "create" else "update") ;;
  ret res.

Definition _absent : M C pyval :=
  st <- get_before "state" ;;
  if py_eq st (PStr "absent") then ret PNone
  else
    let url :=
      "/1.0/networks/" ++ network self ++ "/peers/" ++ name self in
    if negb (check_mode module) then
      resp <- client_query_raw
                {| req_method := DELETE; req_url := url;
                   req_payload := None; req_ok_errors := None |} ;;
      ret (PDict resp)
    else
      append_action "delete" ;;
      ret PNone.

Definition action : M C pyval :=
  match state self with
  | present => _present
  | absent => _absent
  end.

Definition run : self_t C -> outcome * self_t C :=
  run module "peer" _get_peer action.

End Methods.
End Peer.

(** ** incus_network_forward.py *)
Module Forward.

Record params : Type := {
  network : string;
  description : pyval;
  config : pyval;
  ports : pyval;
  listen_address : string;
  project : string;
  state : desired
}.

Section Methods.
Variable C : IncusClient.
Variable module : AnsibleModule.
Variable self : params.

Definition _get_network_forwards : M C dict :=
  let url := "/1.0/networks/" ++ network self ++ "/forwards" in
  client_query_raw
    {| req_method := GET; req_url := url;
       req_payload := None; req_ok_errors := Some [404] |}.

Definition payload : dict :=
  [ ("listen_address", PStr (listen_address self));
    ("description", description self);
    ("config", py_or (config self) (PDict []));
    ("ports", py_or (ports self) (PList [])) ].

Definition _present : M C pyval :=
  st <- get_before "state" ;;
  let method := if py_eq st (PStr "present") then PATCH else POST in
  let payload := payload in
  url <- match method with
         | POST => ret ("/1.0/network/" ++ network self ++ "/forwards")
         | PATCH =>
             ret ("/1.0/network/" ++ network self ++ "/forwards/"
                    ++ listen_address self)
         | _ => raise (Exception "invalid state")
         end ;;
  if negb (check_mode module) then
    resp <- client_query_raw
              {| req_method := method; req_url := url;
                 req_payload := Some payload; req_ok_errors := None |} ;;
    ret (PDict resp)
  else ret PNone.

Definition _absent : M C pyval :=
  st <- get_before "state" ;;
  if py_eq st (PStr "absent") then ret PNone
  else
    let url :=
      "/1.0/network/" ++ network self ++ "/forwards/"
        ++ listen_address self in
    if negb (check_mode module) then
      resp <- client_query_raw
                {| req_method := DELETE; req_url := url;
                   req_payload := None; req_ok_errors := None |} ;;
      ret (PDict resp)
    else ret PNone.

Definition action : M C pyval :=
  match state self with
  | present => _present
  | absent => _absent
  end.

Definition run : self_t C -> outcome * self_t C :=
  run module "forward" _get_network_forwards action.

End Methods.
End Forward.

(** ** incus_network_load_balancer.py *)
Module LoadBalancer.

(** [ports] is declared [type="list", elements="dict", default=[]]. *)
Record params : Type := {
  network : string;
  listen_address : string;
  description : pyval;
  config : pyval;
  backends : pyval;
  ports : list dict;
  state : desired
}.

Section Methods.
Variable repr_str : string -> string.
Variable C : IncusClient.
Variable module : AnsibleModule.
Variable self : params.

(** [__init__]: [self.config = params['config'] or {}] and the like;
    [ports or []] on a list is that list. *)
Definition self_config : pyval := py_or (config self) (PDict []).
Definition self_backends : pyval := py_or (backends self) (PList []).
Definition self_ports : list dict :=
  match ports self with [] => [] | _ => ports self end.

Definition _get_lb : M C dict :=
  let url :=
    "/1.0/networks/" ++ network self ++ "/load-balancers/"
      ++ listen_address self in
  client_query_raw
    {| req_method := GET; req_url := url;
       req_payload := None; req_ok_errors := Some [404] |}.

(** [{**port, 'listen_port': str(port['listen_port'])}] *)
Definition port_payload (port : dict) : result pyval :=
  match subscript port "listen_port" with
  | Raise e => Raise e
  | Ok listen_port =>
      Ok (PDict (dict_set "listen_port"
                   (PStr (py_str repr_str listen_port)) port))
  end.

(** [[ {...} for port in ports ]], element after element. *)
Fixpoint ports_payload (ports : list dict) : result (list pyval) :=
  match ports with
  | [] => Ok []
  | port :: ports' =>
      match port_payload port with
      | Raise e => Raise e
      | Ok p =>
          match ports_payload ports' with
          | Raise e => Raise e
          | Ok ps => Ok (p :: ps)
          end
      end
  end.

Definition payload : result dict :=
  match ports_payload self_ports with
  | Raise e => Raise e
  | Ok ps =>
      Ok [ ("listen_address", PStr (listen_address self));
           ("description", description self);
           ("network", PStr (network self));
           ("config", self_config);
           ("backends", self_backends);
           ("ports", PList ps) ]
  end.

Definition _present : M C pyval :=
  st <- get_before "state" ;;
  let method := if py_eq st (PStr "present") then PATCH else POST in
  payload <- lift payload ;;
  url <- match method with
         | POST =>
             ret ("/1.0/networks/" ++ network self ++ "/load-balancers")
         | PATCH =>
             ret ("/1.0/networks/" ++ network self ++ "/load-balancers/"
                    ++ listen_address self)
         | _ => raise (Exception "invalid state")
         end ;;
  if negb (check_mode module) then
    resp <- client_query_raw
              {| req_method := method; req_url := url;
                 req_payload := Some payload; req_ok_errors := None |} ;;
    ret (PDict resp)
  else ret PNone.

Definition _absent : M C pyval :=
  st <- get_before "state" ;;
  if py_eq st (PStr "absent") then ret PNone
  else
    let url :=
      "/1.0/networks/" ++ network self ++ "/load-balancers/"
        ++ listen_address self in
    if negb (check_mode module) then
      resp <- client_query_raw
                {| req_method := DELETE; req_url := url;
                   req_payload := None; req_ok_errors := None |} ;;
      ret (PDict resp)
    else ret PNone.

Definition action : M C pyval :=
  match state self with
  | present => _present
  | absent => _absent
  end.

Definition run : self_t C -> outcome * self_t C :=
  run module "loadbalancer" _get_lb action.

End Methods.
End LoadBalancer.

(** ** The five managers together *)

Inductive manager : Type :=
| AclManagement (self : Acl.params)
| ZoneManagement (self : Zone.params)
| PeerManagement (self : Peer.params)
| ForwardManagement (self : Forward.params)
| LoadBalancerManagement (self : LoadBalancer.params).

Section Managers.
Variable repr_str : string -> string.
Variable C : IncusClient.
Variable module : AnsibleModule.

Definition target (mg : manager) : desired :=
  match mg with
  | AclManagement p => Acl.state p
  | ZoneManagement p => Zone.state p
  | PeerManagement p => Peer.state p
  | ForwardManagement p => Forward.state p
  | LoadBalancerManagement p => LoadBalancer.state p
  end.

(** The key of the resource in the diff and in the result. *)
Definition result_key (mg : manager) : string :=
  match mg with
  | AclManagement _ => "acl"
  | ZoneManagement _ => "zone"
  | PeerManagement _ => "peer"
  | ForwardManagement _ => "forward"
  | LoadBalancerManagement _ => "loadbalancer"
  end.

(** The getter [run] calls. *)
Definition getter (mg : manager) : M C dict :=
  match mg with
  | AclManagement p => Acl._get_acl p
  | ZoneManagement p => Zone._get_network_zone p
  | PeerManagement p => Peer._get_peer p
  | ForwardManagement p => Forward._get_network_forwards p
  | LoadBalancerManagement p => LoadBalancer._get_lb p
  end.

Definition converge (mg : manager) : M C pyval :=
  match mg with
  | AclManagement p => Acl.action module p
  | ZoneManagement p => Zone.action module p
  | PeerManagement p => Peer.action module p
  | ForwardManagement p => Forward.action module p
  | LoadBalancerManagement p => LoadBalancer.action repr_str module p
  end.

Definition run_manager (mg : manager) : self_t C -> outcome * self_t C :=
  match mg with
  | AclManagement p => Acl.run module p
  | ZoneManagement p => Zone.run module p
  | PeerManagement p => Peer.run module p
  | ForwardManagement p => Forward.run module p
  | LoadBalancerManagement p => LoadBalancer.run repr_str module p
  end.

End Managers.

Arguments converge : clear implicits.
Arguments run_manager : clear implicits.

(** ** Vocabulary of the statements *)

(** The one [GET] a manager issues, before and after it converges. *)
Definition fetch_request (mg : manager) : request :=
  {| req_method := GET;
     req_url :=
       match mg with
       | AclManagement p => "/1.0/network-acls/" ++ Acl.name p
       | ZoneManagement p => "/1.0/network-zones/" ++ Zone.name p
       | PeerManagement p =>
           "/1.0/networks/" ++ Peer.network p ++ "/peers/" ++ Peer.name p
       | ForwardManagement p =>
           "/1.0/networks/" ++ Forward.network p ++ "/forwards"
       | LoadBalancerManagement p =>
           "/1.0/networks/" ++ LoadBalancer.network p ++ "/load-balancers/"
             ++ LoadBalancer.listen_address p
       end;
     req_payload := None;
     req_ok_errors := Some [404] |}.

(** The requests the forward module can issue for a write. *)
Definition forward_write (self : Forward.params) (req : request) : Prop :=
  (req_method req = POST
   /\ req_url req = "/1.0/network/" ++ Forward.network self ++ "/forwards")
  \/ ((req_method req = PATCH \/ req_method req = DELETE)
      /\ req_url req
         = "/1.0/network/" ++ Forward.network self ++ "/forwards/"
             ++ Forward.listen_address self).

(** Method and URL of every request of a trace, in order. *)
Definition wire (cs : list (request * (dict + string)))
  : list (method * string) :=
  map (fun c => (req_method (fst c), req_url (fst c))) cs.

(** An entry of the trace that is a write: [POST], [PATCH] or [DELETE]. *)
Definition write_call (c : request * (dict + string)) : bool :=
  is_write (req_method (fst c)).

Definition no_write (cs : list (request * (dict + string))) : Prop :=
  Forall (fun c => write_call c = false) cs.

(** The remote side answers a second identical read, issued right after
    the first, as it answered the first. *)
Definition stable_read (C : IncusClient) (req : request) (w : World C) : Prop :=
  fst (query_raw C req (snd (query_raw C req w))) = fst (query_raw C req w).

(** The arguments [run] gives [fail_json] for a client exception. *)
Definition failure (C : IncusClient) (m : string) (s : self_t C) : fail_params :=
  {| msg := m;
     fail_changed := false;
     fail_diff := diff s;
     fail_logs := if debug C then Some (logs C (world s)) else None |}.

Section Steps.
Variable C : IncusClient.

(** A handler that returned or raised without calling the client. *)
Definition quiet_step (s : self_t C) (res : result pyval * self_t C) : Prop :=
  diff (snd res) = diff s
  /\ world (snd res) = world s
  /\ calls (snd res) = calls s
  /\ forall m, fst res <> Raise (IncusClientException m).

(** A handler that issued the write [req] and nothing else. *)
Definition write_step (req : request) (s : self_t C)
           (res : result pyval * self_t C) : Prop :=
  is_write (req_method req) = true
  /\ diff (snd res) = diff s
  /\ world (snd res) = snd (query_raw C req (world s))
  /\ calls (snd res)
     = (calls s ++ [(req, fst (query_raw C req (world s)))])%list
  /\ fst res = match fst (query_raw C req (world s)) with
               | inl resp => Ok (PDict resp)
               | inr m => Raise (IncusClientException m)
               end.

End Steps.

(** The ways a run of a manager that starts from [init w] can go, for a
    getter that issues [greq] and a handler [action]. *)
Section Cases.
Variable C : IncusClient.
Variable module : AnsibleModule.
Variable key : string.
Variable greq : request.
Variable action : M C pyval.

(** A response [run] can read: it has its metadata and classifies. *)
Definition readable (resp : dict) (m : pyval) (st : string) : Prop :=
  subscript resp "metadata" = Ok m /\ _incus_to_module_state resp = Ok st.

(** A response on which [run] raises [e]. *)
Definition unreadable (resp : dict) (e : exn) : Prop :=
  subscript resp "metadata" = Raise e
  \/ ((exists m, subscript resp "metadata" = Ok m)
      /\ _incus_to_module_state resp = Raise e).

(** The object once the first response is recorded in the diff. *)
Definition fetched (resp1 : dict) (m1 : pyval) (st1 : string)
           (w1 : World C) : self_t C :=
  {| diff := {| before := [(key, m1); ("state", PStr st1)]; after := [] |};
     actions := [];
     world := w1;
     calls := [(greq, inl resp1)] |}.

(** The object after one more call of the getter. *)
Definition refetched (s : self_t C) (ans : dict + string) (w' : World C)
           (d : diff_t) : self_t C :=
  {| diff := d; actions := actions s; world := w';
     calls := calls s ++ [(greq, ans)] |}.

Inductive run_case (w : World C) (res : outcome * self_t C) : Prop :=
| first_fetch_raises (m : string) (w1 : World C) :
    query_raw C greq w = (inr m, w1) ->
    res = (fail_json (failure m (refetched (init C w) (inr m) w1
                                            (diff (init C w)))),
           refetched (init C w) (inr m) w1 (diff (init C w))) ->
    run_case w res
| first_fetch_unreadable (resp1 : dict) (w1 : World C) (e : exn) :
    query_raw C greq w = (inl resp1, w1) ->
    unreadable resp1 e ->
    fst res = uncaught e ->
    calls (snd res) = [(greq, inl resp1)] ->
    run_case w res
| handler_raises (resp1 : dict) (w1 : World C) (m1 : pyval) (st1 : string)
                 (e : exn) (s2 : self_t C) :
    query_raw C greq w = (inl resp1, w1) ->
    readable resp1 m1 st1 ->
    action (fetched resp1 m1 st1 w1) = (Raise e, s2) ->
    res = (match e with
           | IncusClientException m => fail_json (failure m s2)
           | _ => uncaught e
           end, s2) ->
    run_case w res
| second_fetch_raises (resp1 : dict) (w1 : World C) (m1 : pyval)
                      (st1 : string) (v : pyval) (s2 : self_t C)
                      (m : string) (w3 : World C) :
    query_raw C greq w = (inl resp1, w1) ->
    readable resp1 m1 st1 ->
    action (fetched resp1 m1 st1 w1) = (Ok v, s2) ->
    query_raw C greq (world s2) = (inr m, w3) ->
    res = (fail_json (failure m (refetched s2 (inr m) w3 (diff s2))),
           refetched s2 (inr m) w3 (diff s2)) ->
    run_case w res
| second_fetch_unreadable (resp1 : dict) (w1 : World C) (m1 : pyval)
                          (st1 : string) (v : pyval) (s2 : self_t C)
                          (resp2 : dict) (w3 : World C) (e : exn) :
    query_raw C greq w = (inl resp1, w1) ->
    readable resp1 m1 st1 ->
    action (fetched resp1 m1 st1 w1) = (Ok v, s2) ->
    query_raw C greq (world s2) = (inl resp2, w3) ->
    unreadable resp2 e ->
    fst res = uncaught e ->
    calls (snd res) = (calls s2 ++ [(greq, inl resp2)])%list ->
    run_case w res
| run_exits (resp1 : dict) (w1 : World C) (m1 : pyval) (st1 : string)
            (v : pyval) (s2 : self_t C)
            (resp2 : dict) (w3 : World C) (m2 : pyval) (st2 : string) :
    query_raw C greq w = (inl resp1, w1) ->
    readable resp1 m1 st1 ->
    action (fetched resp1 m1 st1 w1) = (Ok v, s2) ->
    query_raw C greq (world s2) = (inl resp2, w3) ->
    readable resp2 m2 st2 ->
    let d := {| before := [(key, m1); ("state", PStr st1)];
                after := [(key, m2); ("state", PStr st2)] |} in
    res = (exit_json {| log_verbosity := _verbosity module;
                        changed := py_ne m1 m2;
                        old_state := PStr st1;
                        result_diff := d;
                        resource := (key, m2);
                        result_logs :=
                          if self_debug module then Some (logs C w3)
                          else None |},
           refetched s2 (inl resp2) w3 d) ->
    run_case w res.

End Cases.

(** The payload a manager builds when it converges to present. *)
Definition manager_payload (repr_str : string -> string) (mg : manager)
  : result dict :=
  match mg with
  | AclManagement p => Ok (Acl.payload p)
  | ZoneManagement p => Ok (Zone.payload p)
  | PeerManagement p => Ok (Peer.payload p)
  | ForwardManagement p => Ok (Forward.payload p)
  | LoadBalancerManagement p => LoadBalancer.payload repr_str p
  end.


Definition is_peer (mg : manager) : bool :=
  match mg with PeerManagement _ => true | _ => false end.

(** A port mapping that has its 'listen_port'. *)
Definition has_listen_port (port : dict) : Prop :=
  dict_get "listen_port" port <> None.

(** ** Sample runs *)

(** A client that answers from a script, one answer per call whatever the
    request. *)
Definition scripted : IncusClient :=
  {| World := list (dict + string);
     query_raw := fun _ w =>
                    match w with
                    | [] => (inr "connection refused", [])
                    | r :: w' => (r, w')
                    end;
     logs := fun _ => PList [];
     debug := false |}.

(** A quoting that is Python's on strings free of quotes and escapes. *)
Definition quote (s : string) : string := "'" ++ s ++ "'".

Definition found (metadata : pyval) : dict :=
  [ ("type", PStr "sync"); ("status_code", PInt 200);
    ("error_code", PInt 0); ("metadata", metadata) ].

Definition not_found : dict :=
  [ ("type", PStr "error"); ("status_code", PInt 0);
    ("error_code", PInt 404); ("metadata", PNone) ].

Definition server_error : dict :=
  [ ("type", PStr "error"); ("status_code", PInt 0);
    ("error_code", PInt 500); ("metadata", PNone) ].

Definition created : dict :=
  [ ("type", PStr "sync"); ("status_code", PInt 200);
    ("error_code", PInt 0); ("metadata", PNone) ].

Definition normal_mode : AnsibleModule :=
  {| check_mode := false; _verbosity := 0 |}.

Definition dry_run : AnsibleModule :=
  {| check_mode := true; _verbosity := 0 |}.

Definition acl1 (st : desired) : Acl.params :=
  {| Acl.name := "acl1"; Acl.project := "default";
     Acl.description := PNone; Acl.config := PDict [];
     Acl.ingress := PList []; Acl.egress := PList [];
     Acl.state := st |}.

Definition acl1_metadata : pyval :=
  PDict [ ("name", PStr "acl1"); ("description", PStr EmptyString);
          ("config", PDict []); ("egress", PList []); ("ingress", PList []) ].

Definition peer1 (st : desired) : Peer.params :=
  {| Peer.name := "peer1"; Peer.network := "ovn0";
     Peer.target_network := "ovn1"; Peer.description := PNone;
     Peer.config := PNone; Peer.type := PNone;
     Peer.target_integration := PNone;
     Peer.target_project := PStr "default";
     Peer.project := "default"; Peer.state := st |}.

Definition forward1 (st : desired) : Forward.params :=
  {| Forward.network := "net0"; Forward.description := PNone;
     Forward.config := PNone;
     Forward.ports :=
       PList [ PDict [ ("protocol", PStr "tcp"); ("listen_port", PInt 22);
                       ("target_port", PStr "2022") ] ];
     Forward.listen_address := "10.0.0.1"; Forward.project := "default";
     Forward.state := st |}.

Definition ssh_port : dict :=
  [ ("description", PStr "SSH"); ("protocol", PStr "tcp");
    ("listen_port", PInt 22);
    ("target_backend", PList [PStr "instance01"]) ].

Definition nameless_port : dict :=
  [ ("description", PStr "SSH"); ("protocol", PStr "tcp") ].

Definition lb1 (ps : list dict) : LoadBalancer.params :=
  {| LoadBalancer.network := "default";
     LoadBalancer.listen_address := "10.10.10.200";
     LoadBalancer.description := PStr "Load balancer";
     LoadBalancer.config := PNone; LoadBalancer.backends := PNone;
     LoadBalancer.ports := ps; LoadBalancer.state := present |}.

(** * Properties *)

(** ** Python values *)

(** Induction on a value, with the hypothesis on every element of a list
    and on every value of a dict. *)
Lemma pyval_induction (P : pyval -> Prop) :
  P PNone ->
  (forall b, P (PBool b)) ->
  (forall z, P (PInt z)) ->
  (forall s, P (PStr s)) ->
  (forall l, Forall P l -> P (PList l)) ->
  (forall d, Forall (fun kv => P (snd kv)) d -> P (PDict d)) ->
  forall v, P v.
Proof.
  intros HN HB HI HS HL HD.
  fix IH 1.
  intros [ | b | z | s | l | d ].
  - exact HN.
  - apply HB.
  - apply HI.
  - apply HS.
  - apply HL. induction l as [ | x l IHl ]; constructor; [ apply IH | exact IHl ].
  - apply HD. induction d as [ | [k x] d IHd ]; constructor;
      [ apply IH | exact IHd ].
Qed.

(** [x == x] holds for every value of the model. *)
Lemma py_eq_refl : forall v, py_eq v v = true.
Proof.
  induction v as [ | b | z | s | l IHl | d IHd ] using pyval_induction;
    cbn [py_eq].
  - reflexivity.
  - destruct b; reflexivity.
  - apply Z.eqb_refl.
  - apply String.eqb_refl.
  - induction IHl as [ | x l Hx _ IH ]; [ reflexivity | ].
    rewrite Hx, IH. reflexivity.
  - rewrite Nat.eqb_refl. cbn [andb].
    apply forallb_forall. intros [k x] Hin.
    apply existsb_exists. exists (k, x). split; [ exact Hin | ].
    rewrite String.eqb_refl. cbn [andb].
    rewrite Forall_forall in IHd. exact (IHd (k, x) Hin).
Qed.

Lemma py_ne_refl : forall v, py_ne v v = false.
Proof. intros v. unfold py_ne. rewrite py_eq_refl. reflexivity. Qed.

Lemma dict_get_set_same : forall k v d, dict_get k (dict_set k v d) = Some v.
Proof.
  intros k v d. induction d as [ | [k' v'] d IH ]; cbn [dict_set dict_get].
  - rewrite String.eqb_refl. reflexivity.
  - destruct (String.eqb k k') eqn:E; cbn [dict_get]; rewrite E; auto.
Qed.

Lemma dict_get_set_other :
  forall k k' v d, k <> k' -> dict_get k (dict_set k' v d) = dict_get k d.
Proof.
  intros k k' v d Hne. induction d as [ | [k0 v0] d IH ]; cbn [dict_set dict_get].
  - destruct (String.eqb_spec k k'); [ contradiction | reflexivity ].
  - destruct (String.eqb_spec k' k0) as [ -> | Hk ]; cbn [dict_get].
    + destruct (String.eqb_spec k k0); [ contradiction | reflexivity ].
    + rewrite IH. reflexivity.
Qed.

Lemma dict_keys_set_present :
  forall k v d, dict_get k d <> None ->
                dict_keys (dict_set k v d) = dict_keys d.
Proof.
  intros k v d. unfold dict_keys.
  induction d as [ | [k' v'] d IH ]; cbn [dict_set dict_get map fst].
  - congruence.
  - destruct (String.eqb k k') eqn:E; cbn [map fst]; intros H.
    + reflexivity.
    + rewrite IH by exact H. reflexivity.
Qed.

(** ** The shape of a run *)

Lemma classify_not_client_exception :
  forall resp m, _incus_to_module_state resp <> Raise (IncusClientException m).
Proof.
  intros resp m. unfold _incus_to_module_state, subscript.
  destruct (dict_get "status_code" resp) as [sc | ]; [ | discriminate ].
  destruct (py_eq sc (PInt 200)); [ discriminate | ].
  destruct (dict_get "error_code" resp) as [ec | ]; [ | discriminate ].
  destruct (py_eq ec (PInt 404)); discriminate.
Qed.

Lemma subscript_not_client_exception :
  forall d k m, subscript d k <> Raise (IncusClientException m).
Proof.
  intros d k m. unfold subscript. destruct (dict_get k d); discriminate.
Qed.

Lemma unreadable_not_client_exception :
  forall resp m, ~ unreadable resp (IncusClientException m).
Proof.
  intros resp m [H | [_ H]].
  - exact (subscript_not_client_exception _ _ H).
  - exact (classify_not_client_exception _ H).
Qed.

Section RunShape.
Variable C : IncusClient.
Variable module : AnsibleModule.
Variable key : string.
Variable greq : request.
Variable action : M C pyval.

Hypothesis key_not_state : key <> "state".
Hypothesis action_keeps_diff : forall s, diff (snd (action s)) = diff s.

Lemma run_cases :
  forall w,
    run_case module key greq action w
             (run module key (client_query_raw greq) action (init C w)).
Proof.
  intros w.
  assert (Hk : String.eqb "state" key = false).
  { apply String.eqb_neq. congruence. }
  assert (Hk' : String.eqb key "state" = false).
  { apply String.eqb_neq. congruence. }
  unfold run, run_try, bind, client_query_raw, lift.
  cbn [init world calls diff actions before after].
  destruct (query_raw C greq w) as [[resp1 | m] w1] eqn:Q1.
  2:{ eapply first_fetch_raises; [ exact Q1 | reflexivity ]. }
  destruct (subscript resp1 "metadata") as [m1 | e] eqn:Hm1.
  2:{ eapply first_fetch_unreadable; [ exact Q1 | left; exact Hm1 | | ].
      - destruct e; try reflexivity.
        exfalso. exact (subscript_not_client_exception _ _ Hm1).
      - destruct e; reflexivity. }
  unfold set_before at 1. cbn [diff world calls actions before after dict_set].
  destruct (_incus_to_module_state resp1) as [st1 | e] eqn:Hs1.
  2:{ eapply first_fetch_unreadable;
        [ exact Q1 | right; split; [ eexists; exact Hm1 | exact Hs1 ] | | ].
      - destruct e; try reflexivity.
        exfalso. exact (classify_not_client_exception _ Hs1).
      - destruct e; reflexivity. }
  unfold set_before.
  cbn [diff world calls actions before after dict_set app].
  rewrite Hk.
  fold (fetched C key greq resp1 m1 st1 w1).
  pose proof (action_keeps_diff (fetched C key greq resp1 m1 st1 w1)) as Hd.
  destruct (action (fetched C key greq resp1 m1 st1 w1)) as [[v | e] s2] eqn:Ha.
  2:{ eapply handler_raises;
        [ exact Q1 | split; eassumption | exact Ha | ].
      destruct e; reflexivity. }
  cbn [snd] in Hd.
  destruct (query_raw C greq (world s2)) as [[resp2 | m] w3] eqn:Q2.
  2:{ eapply second_fetch_raises;
        [ exact Q1 | split; eassumption | exact Ha | exact Q2 | reflexivity ]. }
  destruct (subscript resp2 "metadata") as [m2 | e] eqn:Hm2.
  2:{ eapply second_fetch_unreadable;
        [ exact Q1 | split; eassumption | exact Ha | exact Q2
        | left; exact Hm2 | | ].
      - destruct e; try reflexivity.
        exfalso. exact (subscript_not_client_exception _ _ Hm2).
      - destruct e; reflexivity. }
  unfold set_after at 1. cbn [diff world calls actions before after dict_set].
  destruct (_incus_to_module_state resp2) as [st2 | e] eqn:Hs2.
  2:{ eapply second_fetch_unreadable;
        [ exact Q1 | split; eassumption | exact Ha | exact Q2
        | right; split; [ eexists; exact Hm2 | exact Hs2 ] | | ].
      - destruct e; try reflexivity.
        exfalso. exact (classify_not_client_exception _ Hs2).
      - destruct e; reflexivity. }
  unfold set_after, get_before, get_after, subscript.
  cbn [diff world calls actions before after dict_set dict_get].
  rewrite Hd. cbn [fetched diff before after dict_set dict_get].
  rewrite Hk, Hk', !String.eqb_refl. cbn [dict_get].
  rewrite !String.eqb_refl.
  eapply run_exits;
    [ exact Q1 | split; eassumption | exact Ha | exact Q2
    | split; eassumption | ].
  cbn zeta. unfold refetched. reflexivity.
Qed.

End RunShape.

(** ** The handlers, one step each *)

Ltac handler_unfold :=
  unfold Acl._present, Acl._absent, Zone._present, Zone._absent,
    Peer._present, Peer._absent, Forward._present, Forward._absent,
    LoadBalancer._present, LoadBalancer._absent;
  unfold bind, get_before, lift, ret, raise, append_action, client_query_raw.

Ltac handler_split :=
  repeat
    (cbn [negb fst snd diff world calls actions is_POST];
     match goal with
     | |- context [subscript ?d ?k] =>
         let E := fresh "Esub" in destruct (subscript d k) eqn:E
     | |- context [if py_eq ?a ?b then _ else _] =>
         let E := fresh "Eeq" in destruct (py_eq a b) eqn:E
     | |- context [check_mode ?m] =>
         let E := fresh "Echk" in destruct (check_mode m) eqn:E
     | |- context [LoadBalancer.payload ?q ?p] =>
         let E := fresh "Epay" in destruct (LoadBalancer.payload q p) eqn:E
     | |- context [query_raw ?C ?r ?w] =>
         let E := fresh "Eq" in
         destruct (query_raw C r w) as [[?resp | ?m] ?w'] eqn:E
     end).

Lemma port_payload_raises :
  forall q port e,
    LoadBalancer.port_payload q port = Raise e -> e = KeyError "listen_port".
Proof.
  intros q port e. unfold LoadBalancer.port_payload, subscript.
  destruct (dict_get "listen_port" port); intros H; inversion H; reflexivity.
Qed.

Lemma ports_payload_raises :
  forall q ports e,
    LoadBalancer.ports_payload q ports = Raise e -> e = KeyError "listen_port".
Proof.
  intros q ports e. induction ports as [ | port ports IH ];
    cbn [LoadBalancer.ports_payload].
  - discriminate.
  - destruct (LoadBalancer.port_payload q port) as [p | e'] eqn:Hp.
    + destruct (LoadBalancer.ports_payload q ports) as [ps | e''].
      * discriminate.
      * intros H. inversion H; subst. apply IH. reflexivity.
    + intros H. inversion H; subst. exact (port_payload_raises _ _ Hp).
Qed.

Lemma payload_raises :
  forall q self e,
    LoadBalancer.payload q self = Raise e -> e = KeyError "listen_port".
Proof.
  intros q self e. unfold LoadBalancer.payload.
  destruct (LoadBalancer.ports_payload q (LoadBalancer.self_ports self))
    as [ps | e'] eqn:Hp.
  - discriminate.
  - intros H. inversion H; subst. exact (ports_payload_raises _ _ Hp).
Qed.

Ltac quiet_tac :=
  unfold quiet_step; cbn [fst snd diff world calls actions];
  repeat split; try reflexivity;
  let m := fresh "m" in
  let H := fresh "H" in
  intros m H; try discriminate; inversion H; subst;
  match goal with
  | E : subscript _ _ = Raise (IncusClientException _) |- _ =>
      exact (subscript_not_client_exception _ _ E)
  | E : LoadBalancer.payload _ _ = Raise _ |- _ =>
      apply payload_raises in E; discriminate
  end.

Ltac write_tac :=
  unfold write_step; cbn [fst snd diff world calls actions req_method is_write];
  match goal with
  | E : query_raw _ _ _ = _ |- _ => rewrite E
  end;
  cbn [fst snd]; repeat split; reflexivity.

Section Handlers.
Variable repr_str : string -> string.
Variable C : IncusClient.
Variable module : AnsibleModule.

Lemma run_manager_unfold :
  forall mg,
    run_manager repr_str C module mg
    = run module (result_key mg) (client_query_raw (fetch_request mg))
          (converge repr_str C module mg).
Proof. intros [p | p | p | p | p]; reflexivity. Qed.

Lemma result_key_not_state : forall mg, result_key mg <> "state".
Proof. intros [p | p | p | p | p]; discriminate. Qed.

(** A handler calls the client at most once, and then for a write. *)
Lemma converge_step :
  forall mg (s : self_t C),
    quiet_step s (converge repr_str C module mg s)
    \/ exists req, write_step req s (converge repr_str C module mg s).
Proof.
  intros [p | p | p | p | p] s; unfold converge;
    unfold Acl.action, Zone.action, Peer.action, Forward.action,
      LoadBalancer.action;
    match goal with
    | |- context [match ?st with present => _ | absent => _ end] =>
        destruct st
    end;
    handler_unfold; handler_split;
    solve [ left; quiet_tac | right; eexists; write_tac ].
Qed.

Lemma converge_keeps_diff :
  forall mg (s : self_t C),
    diff (snd (converge repr_str C module mg s)) = diff s.
Proof.
  intros mg s.
  destruct (converge_step mg s) as [(H & _) | (req & _ & H & _)]; exact H.
Qed.

(** Under check mode no handler calls the client. *)
Lemma converge_check_mode :
  forall mg (s : self_t C),
    check_mode module = true ->
    quiet_step s (converge repr_str C module mg s).
Proof.
  intros [p | p | p | p | p] s Hchk; unfold converge;
    unfold Acl.action, Zone.action, Peer.action, Forward.action,
      LoadBalancer.action;
    match goal with
    | |- context [match ?st with present => _ | absent => _ end] =>
        destruct st
    end;
    handler_unfold; rewrite Hchk; handler_split; quiet_tac.
Qed.

(** Converging to absent what is absent returns at once. *)
Lemma converge_absent_already_absent :
  forall mg (s : self_t C),
    target mg = absent ->
    subscript (before (diff s)) "state" = Ok (PStr "absent") ->
    quiet_step s (converge repr_str C module mg s)
    /\ fst (converge repr_str C module mg s) = Ok PNone.
Proof.
  intros [p | p | p | p | p] s Ht Hs; cbn [target] in Ht;
    unfold converge;
    unfold Acl.action, Zone.action, Peer.action, Forward.action,
      LoadBalancer.action;
    rewrite Ht; handler_unfold; rewrite Hs;
    cbn [py_eq String.eqb Ascii.eqb Bool.eqb];
    (split; [ quiet_tac | reflexivity ]).
Qed.

End Handlers.

(** ** Classification of a response *)

(** Only the integer itself compares equal to an integer that is neither
    0 nor 1. *)
Lemma py_eq_int :
  forall v z, z <> 0 -> z <> 1 -> (py_eq v (PInt z) = true <-> v = PInt z).
Proof.
  intros v z H0 H1. split.
  - destruct v as [ | b | x | s | l | d ]; cbn [py_eq]; try discriminate.
    + destruct b; cbn [Z.b2z]; intros H; apply Z.eqb_eq in H; congruence.
    + intros H. apply Z.eqb_eq in H. congruence.
  - intros ->. apply py_eq_refl.
Qed.

(** C2. [_incus_to_module_state] answers "present" for a response whose
    status code is 200, "absent" for one whose status code is not 200 and
    whose error code is 404, and raises [Exception("unknown resource state")]
    for every other pair of status and error code. *)
Theorem incus_to_module_state_classifies :
  forall resp_json status_code,
    subscript resp_json "status_code" = Ok status_code ->
    (status_code = PInt 200 ->
     _incus_to_module_state resp_json = Ok "present")
    /\ (forall error_code,
           subscript resp_json "error_code" = Ok error_code ->
           status_code <> PInt 200 -> error_code = PInt 404 ->
           _incus_to_module_state resp_json = Ok "absent")
    /\ (forall error_code,
           subscript resp_json "error_code" = Ok error_code ->
           status_code <> PInt 200 -> error_code <> PInt 404 ->
           _incus_to_module_state resp_json
           = Raise (Exception "unknown resource state")).
Proof.
  intros resp sc Hsc. unfold _incus_to_module_state. rewrite Hsc.
  split; [ | split ].
  - intros ->. reflexivity.
  - intros ec Hec Hn ->. rewrite Hec.
    destruct (py_eq sc (PInt 200)) eqn:E.
    + apply py_eq_int in E; [ contradiction | lia | lia ].
    + reflexivity.
  - intros ec Hec Hn Hn'. rewrite Hec.
    destruct (py_eq sc (PInt 200)) eqn:E.
    + apply py_eq_int in E; [ contradiction | lia | lia ].
    + destruct (py_eq ec (PInt 404)) eqn:E'.
      * apply py_eq_int in E'; [ contradiction | lia | lia ].
      * reflexivity.
Qed.

Lemma incus_to_module_state_classifies_witness :
  _incus_to_module_state (found PNone) = Ok "present"
  /\ _incus_to_module_state not_found = Ok "absent"
  /\ _incus_to_module_state server_error
     = Raise (Exception "unknown resource state").
Proof.
  split; [ | split ].
  - apply (proj1 (@incus_to_module_state_classifies
                    (found PNone) (PInt 200) eq_refl)).
    reflexivity.
  - apply (proj1 (proj2 (@incus_to_module_state_classifies
                           not_found (PInt 0) eq_refl)) (PInt 404)).
    + reflexivity.
    + discriminate.
    + reflexivity.
  - apply (proj2 (proj2 (@incus_to_module_state_classifies
                           server_error (PInt 0) eq_refl)) (PInt 500)).
    + reflexivity.
    + discriminate.
    + discriminate.
Defined.

(** ** Facts about every run *)

Section RunFacts.
Variable repr_str : string -> string.
Variable C : IncusClient.
Variable module : AnsibleModule.

Lemma run_manager_cases :
  forall mg w,
    run_case module (result_key mg) (fetch_request mg)
             (converge repr_str C module mg) w
             (run_manager repr_str C module mg (init C w)).
Proof.
  intros mg w. rewrite run_manager_unfold.
  apply run_cases.
  - apply result_key_not_state.
  - apply converge_keeps_diff.
Qed.

(** The trace a handler leaves behind the first fetch: that fetch, then
    at most one write. *)
Lemma handler_trace :
  forall mg resp1 m1 st1 w1 r s2,
    converge repr_str C module mg
             (fetched C (result_key mg) (fetch_request mg) resp1 m1 st1 w1)
    = (r, s2) ->
    exists mid,
      calls s2 = (fetch_request mg, inl resp1) :: mid
      /\ (mid = []
          \/ exists req ans, mid = [(req, ans)]
                             /\ is_write (req_method req) = true
                             /\ (forall m, ans = inr m ->
                                           r = Raise (IncusClientException m))
                             /\ (forall m, r = Raise (IncusClientException m)
                                           -> ans = inr m)).
Proof.
  intros mg resp1 m1 st1 w1 r s2 Ha.
  destruct (converge_step repr_str module mg
              (fetched C (result_key mg) (fetch_request mg) resp1 m1 st1 w1))
    as [(_ & _ & Hc & _) | (req & Hw & _ & _ & Hc & Hr)];
    rewrite Ha in *; cbn [fst snd] in *.
  - exists []. split; [ exact Hc | left; reflexivity ].
  - remember (fst (query_raw C req
                     (world (fetched C (result_key mg) (fetch_request mg)
                                     resp1 m1 st1 w1)))) as ans.
    exists [(req, ans)]. split; [ exact Hc | right ].
    exists req, ans. split; [ reflexivity | split; [ exact Hw | split ] ].
    + intros m Hm. rewrite Hm in Hr. exact Hr.
    + intros m Hm. rewrite Hm in Hr.
      destruct ans; inversion Hr; reflexivity.
Qed.

End RunFacts.

(** C1. When [run] ends through [exit_json], the trace is the first fetch,
    whatever the handler issued, and the second fetch; [changed] is true
    exactly when the metadata of the first response differs, by Python's
    deep comparison, from the metadata of the second, whether or not a
    write lies between them; equal metadata is reported as unchanged. *)
Theorem run_changed_iff_metadata_differs :
  forall repr_str C module mg (w : World C) r s',
    run_manager repr_str C module mg (init C w) = (exit_json r, s') ->
    exists resp1 mid resp2 m1 m2,
      calls s'
      = ((fetch_request mg, inl resp1) :: mid
           ++ [(fetch_request mg, inl resp2)])%list
      /\ subscript resp1 "metadata" = Ok m1
      /\ subscript resp2 "metadata" = Ok m2
      /\ subscript (before (result_diff r)) (result_key mg) = Ok m1
      /\ subscript (after (result_diff r)) (result_key mg) = Ok m2
      /\ (changed r = true <-> py_eq m1 m2 = false)
      /\ (m1 = m2 -> changed r = false).
Proof.
  intros repr_str C module mg w r s' Hrun.
  destruct (@run_manager_cases repr_str C module mg w)
    as [ m w1 Q1 Hres
       | resp1 w1 e Q1 Hu Hres Hcalls
       | resp1 w1 m1 st1 e s2 Q1 [Hm1 Hs1] Ha Hres
       | resp1 w1 m1 st1 v s2 m w3 Q1 [Hm1 Hs1] Ha Q2 Hres
       | resp1 w1 m1 st1 v s2 resp2 w3 e Q1 [Hm1 Hs1] Ha Q2 Hu Hres Hcalls
       | resp1 w1 m1 st1 v s2 resp2 w3 m2 st2 Q1 [Hm1 Hs1] Ha Q2 [Hm2 Hs2] d Hres ];
    rewrite Hrun in Hres; cbn [fst] in Hres; try discriminate.
  - destruct e; discriminate.
  - inversion Hres; subst r s'; clear Hres.
    destruct (handler_trace _ _ _ _ _ _ _ Ha) as (mid & Hc & _).
    exists resp1, mid, resp2, m1, m2.
    cbn [refetched calls result_diff changed before after d].
    rewrite Hc. unfold subscript. cbn [dict_get].
    rewrite !String.eqb_refl.
    repeat split; auto.
    + unfold py_ne. intros H. apply negb_true_iff. exact H.
    + unfold py_ne. intros H. apply negb_true_iff. exact H.
    + intros ->. apply py_ne_refl.
Qed.

Lemma run_changed_iff_metadata_differs_witness :
  exists r s',
    run_manager quote scripted normal_mode (AclManagement (acl1 present))
      (init scripted
         [inl (found acl1_metadata); inl created; inl (found acl1_metadata)])
    = (exit_json r, s')
    /\ exists resp1 mid resp2 m1 m2,
        calls s'
        = ((fetch_request (AclManagement (acl1 present)), inl resp1) :: mid
             ++ [(fetch_request (AclManagement (acl1 present)), inl resp2)])%list
        /\ subscript resp1 "metadata" = Ok m1
        /\ subscript resp2 "metadata" = Ok m2
        /\ subscript (before (result_diff r)) "acl" = Ok m1
        /\ subscript (after (result_diff r)) "acl" = Ok m2
        /\ (changed r = true <-> py_eq m1 m2 = false)
        /\ (m1 = m2 -> changed r = false).
Proof.
  eexists. eexists. split.
  - reflexivity.
  - apply (@run_changed_iff_metadata_differs quote scripted normal_mode
             (AclManagement (acl1 present))
             [inl (found acl1_metadata); inl created;
              inl (found acl1_metadata)]).
    reflexivity.
Defined.

(** ** Check mode *)

Ltac run_inversion repr_str C module mg w :=
  destruct (@run_manager_cases repr_str C module mg w)
    as [ m0 w1 Q1 Hres
       | resp1 w1 e Q1 Hu Hres Hcalls
       | resp1 w1 m1 st1 e s2 Q1 [Hm1 Hs1] Ha Hres
       | resp1 w1 m1 st1 v s2 m0 w3 Q1 [Hm1 Hs1] Ha Q2 Hres
       | resp1 w1 m1 st1 v s2 resp2 w3 e Q1 [Hm1 Hs1] Ha Q2 Hu Hres Hcalls
       | resp1 w1 m1 st1 v s2 resp2 w3 m2 st2 Q1 [Hm1 Hs1] Ha Q2 [Hm2 Hs2]
               d Hres ].

(** C3. Under check mode the trace of a run holds no [POST], [PATCH] or
    [DELETE], whatever the target and whatever the first fetch found; and
    when the remote side answers the second read as it answered the first,
    no run reports [changed=true]. *)
Theorem check_mode_issues_no_write :
  forall repr_str C module mg (w : World C),
    check_mode module = true ->
    let res := run_manager repr_str C module mg (init C w) in
    no_write (calls (snd res))
    /\ (stable_read C (fetch_request mg) w ->
        forall c, reported_changed (fst res) = Some c -> c = false).
Proof.
  intros repr_str C module mg w Hchk res. subst res.
  assert (Hquiet : forall s, calls (snd (converge repr_str C module mg s))
                             = calls s
                             /\ world (snd (converge repr_str C module mg s))
                                = world s).
  { intros s.
    destruct (@converge_check_mode repr_str C module mg s Hchk)
      as (_ & Hw & Hc & _). split; assumption. }
  run_inversion repr_str C module mg w.
  - rewrite Hres. cbn [fst snd refetched calls init app reported_changed].
    split.
    + repeat constructor.
    + intros _ c Hc. inversion Hc. reflexivity.
  - rewrite Hcalls, Hres. cbn [reported_changed]. split.
    + repeat constructor.
    + intros _ c Hc. discriminate.
  - destruct (Hquiet (fetched C (result_key mg) (fetch_request mg)
                              resp1 m1 st1 w1)) as [Hc _].
    rewrite Ha in Hc. cbn [snd fetched calls] in Hc.
    rewrite Hres. cbn [fst snd]. rewrite Hc. split.
    + repeat constructor.
    + intros _ c Hrc. destruct e; cbn [reported_changed] in Hrc;
        inversion Hrc; reflexivity.
  - destruct (Hquiet (fetched C (result_key mg) (fetch_request mg)
                              resp1 m1 st1 w1)) as [Hc _].
    rewrite Ha in Hc. cbn [snd fetched calls] in Hc.
    rewrite Hres. cbn [fst snd refetched calls reported_changed].
    rewrite Hc. split.
    + repeat constructor.
    + intros _ c Hrc. inversion Hrc. reflexivity.
  - destruct (Hquiet (fetched C (result_key mg) (fetch_request mg)
                              resp1 m1 st1 w1)) as [Hc _].
    rewrite Ha in Hc. cbn [snd fetched calls] in Hc.
    rewrite Hcalls, Hres, Hc. cbn [reported_changed]. split.
    + repeat constructor.
    + intros _ c Hrc. discriminate.
  - destruct (Hquiet (fetched C (result_key mg) (fetch_request mg)
                              resp1 m1 st1 w1)) as [Hc Hw].
    rewrite Ha in Hc, Hw. cbn [snd fetched calls world] in Hc, Hw.
    rewrite Hres. cbn [fst snd refetched calls reported_changed changed].
    rewrite Hc. split.
    + repeat constructor.
    + intros Hstable c Hrc. inversion Hrc; subst c; clear Hrc.
      unfold stable_read in Hstable. rewrite Q1 in Hstable.
      cbn [fst snd] in Hstable. rewrite <- Hw, Q2 in Hstable.
      cbn [fst] in Hstable. inversion Hstable; subst resp2.
      rewrite Hm1 in Hm2. inversion Hm2; subst m2. apply py_ne_refl.
Qed.

Lemma check_mode_issues_no_write_witness :
  let res :=
    run_manager quote scripted dry_run (AclManagement (acl1 present))
      (init scripted [inl not_found; inl not_found]) in
  check_mode dry_run = true
  /\ stable_read scripted (fetch_request (AclManagement (acl1 present)))
                 [inl not_found; inl not_found]
  /\ no_write (calls (snd res))
  /\ (forall c, reported_changed (fst res) = Some c -> c = false)
  /\ reported_changed (fst res) = Some false.
Proof.
  pose proof (@check_mode_issues_no_write quote scripted dry_run
                (AclManagement (acl1 present))
                [inl not_found; inl not_found] eq_refl) as H.
  cbv zeta in *. destruct H as [Hn Hc].
  split; [ reflexivity | split; [ reflexivity | split; [ exact Hn | split ] ] ].
  - exact (Hc eq_refl).
  - reflexivity.
Defined.

(** ** Failures *)

(** C5. A run whose trace holds a write the client answered with an
    exception stopped there: the trace is the first fetch and that write,
    with no second fetch, and the run ends through [fail_json] with the
    message of the exception, [changed=False] and a diff whose [before]
    holds the first metadata and state and whose [after] is empty. *)
Theorem rejected_write_aborts_reconcile :
  forall repr_str C module mg (w : World C) req m,
    let res := run_manager repr_str C module mg (init C w) in
    is_write (req_method req) = true ->
    In (req, inr m) (calls (snd res)) ->
    exists resp1 m1 st1,
      calls (snd res) = [(fetch_request mg, inl resp1); (req, inr m)]
      /\ readable resp1 m1 st1
      /\ fst res
         = fail_json
             {| msg := m;
                fail_changed := false;
                fail_diff :=
                  {| before := [(result_key mg, m1); ("state", PStr st1)];
                     after := [] |};
                fail_logs :=
                  if debug C then Some (logs C (world (snd res))) else None |}.
Proof.
  intros repr_str C module mg w req m res Hw Hin. subst res.
  assert (Hget : forall ans : dict + string,
             (req, inr m) <> (fetch_request mg, ans)).
  { intros ans H. inversion H; subst req. discriminate. }
  run_inversion repr_str C module mg w.
  - rewrite Hres in Hin. cbn [snd refetched calls init app] in Hin.
    destruct Hin as [H | []]. symmetry in H. destruct (Hget _ H).
  - rewrite Hcalls in Hin.
    destruct Hin as [H | []]. symmetry in H. destruct (Hget _ H).
  - destruct (@handler_trace repr_str C module mg _ _ _ _ _ _ Ha)
      as (mid & Hc & [-> | (req' & ans & -> & _ & Hr & _)]);
      rewrite Hres in *; cbn [fst snd] in *; rewrite Hc in *.
    + destruct Hin as [H | []]. symmetry in H. destruct (Hget _ H).
    + destruct Hin as [H | [H | []]].
      * symmetry in H. destruct (Hget _ H).
      * inversion H; subst req' ans; clear H.
        specialize (Hr m eq_refl). inversion Hr; subst e.
        exists resp1, m1, st1.
        split; [ reflexivity | split; [ split; assumption | ] ].
        unfold failure.
        pose proof (@converge_keeps_diff repr_str C module mg
                      (fetched C (result_key mg) (fetch_request mg)
                               resp1 m1 st1 w1)) as Hd.
        rewrite Ha in Hd. cbn [snd fetched diff] in Hd.
        rewrite Hd. reflexivity.
  - destruct (@handler_trace repr_str C module mg _ _ _ _ _ _ Ha)
      as (mid & Hc & [-> | (req' & ans & -> & _ & Hr & _)]);
      rewrite Hres in *; cbn [fst snd refetched calls] in *; rewrite Hc in *;
      cbn [app] in Hin.
    + destruct Hin as [H | [H | []]]; symmetry in H; destruct (Hget _ H).
    + destruct Hin as [H | [H | [H | []]]];
        try (symmetry in H; destruct (Hget _ H)).
      inversion H; subst req' ans. specialize (Hr m eq_refl). discriminate.
  - destruct (@handler_trace repr_str C module mg _ _ _ _ _ _ Ha)
      as (mid & Hc & [-> | (req' & ans & -> & _ & Hr & _)]);
      rewrite Hcalls, Hc in Hin; cbn [app] in Hin.
    + destruct Hin as [H | [H | []]]; symmetry in H; destruct (Hget _ H).
    + destruct Hin as [H | [H | [H | []]]];
        try (symmetry in H; destruct (Hget _ H)).
      inversion H; subst req' ans. specialize (Hr m eq_refl). discriminate.
  - destruct (@handler_trace repr_str C module mg _ _ _ _ _ _ Ha)
      as (mid & Hc & [-> | (req' & ans & -> & _ & Hr & _)]);
      rewrite Hres in *; cbn [fst snd refetched calls] in *; rewrite Hc in *;
      cbn [app] in Hin.
    + destruct Hin as [H | [H | []]]; symmetry in H; destruct (Hget _ H).
    + destruct Hin as [H | [H | [H | []]]];
        try (symmetry in H; destruct (Hget _ H)).
      inversion H; subst req' ans. specialize (Hr m eq_refl). discriminate.
Qed.

Lemma rejected_write_aborts_reconcile_witness :
  let mg := AclManagement (acl1 present) in
  let res :=
    run_manager quote scripted normal_mode mg
      (init scripted [inl not_found; inr "Bad Request"]) in
  let req :=
    {| req_method := POST; req_url := "/1.0/network-acls";
       req_payload := Some (Acl.payload (acl1 present));
       req_ok_errors := None |} in
  is_write (req_method req) = true
  /\ In (req, inr "Bad Request") (calls (snd res))
  /\ exists resp1 m1 st1,
      calls (snd res) = [(fetch_request mg, inl resp1); (req, inr "Bad Request")]
      /\ readable resp1 m1 st1
      /\ fst res
         = fail_json
             {| msg := "Bad Request";
                fail_changed := false;
                fail_diff :=
                  {| before := [("acl", m1); ("state", PStr st1)];
                     after := [] |};
                fail_logs := None |}.
Proof.
  cbv zeta.
  split; [ reflexivity | split; [ right; left; reflexivity | ] ].
  apply (@rejected_write_aborts_reconcile quote scripted normal_mode
           (AclManagement (acl1 present))
           [inl not_found; inr "Bad Request"]).
  - reflexivity.
  - right. left. reflexivity.
Defined.

(** C4, as the code has it.  Every exception of the client, raised by a
    fetch or by the write, ends the run through [fail_json] with the message
    of the exception, [changed=False] and the diff as it stands, whose
    [after] is still empty.  A first response that does not classify is not
    among them: [Exception("unknown resource state")] leaves [run]
    uncaught. *)
Theorem client_exception_structured_failure :
  forall repr_str C module mg (w : World C),
    let res := run_manager repr_str C module mg (init C w) in
    (forall req m,
        In (req, inr m) (calls (snd res)) ->
        fst res = fail_json {| msg := m;
                               fail_changed := false;
                               fail_diff := diff (snd res);
                               fail_logs :=
                                 if debug C
                                 then Some (logs C (world (snd res)))
                                 else None |}
        /\ after (diff (snd res)) = [])
    /\ (forall resp1 w1 m1,
           query_raw C (fetch_request mg) w = (inl resp1, w1) ->
           subscript resp1 "metadata" = Ok m1 ->
           _incus_to_module_state resp1
           = Raise (Exception "unknown resource state") ->
           fst res = uncaught (Exception "unknown resource state")).
Proof.
  intros repr_str C module mg w res. subst res.
  assert (Hkeep : forall resp1 m1 st1 w1 r s2,
             converge repr_str C module mg
               (fetched C (result_key mg) (fetch_request mg) resp1 m1 st1 w1)
             = (r, s2) -> after (diff s2) = []).
  { intros resp1 m1 st1 w1 r s2 Ha.
    pose proof (@converge_keeps_diff repr_str C module mg
                  (fetched C (result_key mg) (fetch_request mg)
                           resp1 m1 st1 w1)) as Hd.
    rewrite Ha in Hd. cbn [snd] in Hd. rewrite Hd. reflexivity. }
  split.
  - intros req m Hin.
    run_inversion repr_str C module mg w.
    + rewrite Hres in *. cbn [fst snd refetched calls init app] in *.
      destruct Hin as [H | []]. inversion H; subst. split; reflexivity.
    + rewrite Hcalls in Hin. destruct Hin as [H | []]. discriminate.
    + destruct (@handler_trace repr_str C module mg _ _ _ _ _ _ Ha)
        as (mid & Hc & [-> | (req' & ans & -> & _ & Hr & _)]);
        rewrite Hres in *; cbn [fst snd] in *; rewrite Hc in Hin.
      * destruct Hin as [H | []]. discriminate.
      * destruct Hin as [H | [H | []]]; [ discriminate | ].
        inversion H; subst req' ans; clear H.
        specialize (Hr m eq_refl). inversion Hr; subst e.
        split; [ reflexivity | exact (Hkeep _ _ _ _ _ _ Ha) ].
    + destruct (@handler_trace repr_str C module mg _ _ _ _ _ _ Ha)
        as (mid & Hc & [-> | (req' & ans & -> & _ & Hr & _)]);
        rewrite Hres in *; cbn [fst snd refetched calls diff world] in *;
        rewrite Hc in Hin; cbn [app] in Hin.
      * destruct Hin as [H | [H | []]]; [ discriminate | ].
        inversion H; subst.
        split; [ reflexivity | exact (Hkeep _ _ _ _ _ _ Ha) ].
      * destruct Hin as [H | [H | [H | []]]]; [ discriminate | | ].
        -- inversion H; subst req' ans. specialize (Hr m eq_refl).
           discriminate.
        -- inversion H; subst.
           split; [ reflexivity | exact (Hkeep _ _ _ _ _ _ Ha) ].
    + destruct (@handler_trace repr_str C module mg _ _ _ _ _ _ Ha)
        as (mid & Hc & [-> | (req' & ans & -> & _ & Hr & _)]);
        rewrite Hcalls, Hc in Hin; cbn [app] in Hin.
      * destruct Hin as [H | [H | []]]; discriminate.
      * destruct Hin as [H | [H | [H | []]]]; try discriminate.
        inversion H; subst req' ans. specialize (Hr m eq_refl).
        discriminate.
    + destruct (@handler_trace repr_str C module mg _ _ _ _ _ _ Ha)
        as (mid & Hc & [-> | (req' & ans & -> & _ & Hr & _)]);
        rewrite Hres in *; cbn [fst snd refetched calls] in *;
        rewrite Hc in Hin; cbn [app] in Hin.
      * destruct Hin as [H | [H | []]]; discriminate.
      * destruct Hin as [H | [H | [H | []]]]; try discriminate.
        inversion H; subst req' ans. specialize (Hr m eq_refl).
        discriminate.
  - intros resp1' w1' m1' Q Hm Hs.
    run_inversion repr_str C module mg w;
      rewrite Q in Q1; inversion Q1; subst;
      try (destruct Hm1 as [Hm1 Hs1]);
      try (rewrite Hs in Hs1; discriminate).
    destruct Hu as [Hu | [_ Hu]].
    + rewrite Hm in Hu. discriminate.
    + rewrite Hs in Hu. inversion Hu; subst e. exact Hres.
Qed.

Lemma client_exception_structured_failure_witness :
  (let res :=
     run_manager quote scripted normal_mode (AclManagement (acl1 present))
       (init scripted [inl (found acl1_metadata); inr "Bad Request"]) in
   fst res = fail_json {| msg := "Bad Request";
                          fail_changed := false;
                          fail_diff := diff (snd res);
                          fail_logs := None |}
   /\ after (diff (snd res)) = [])
  /\ (let res :=
        run_manager quote scripted normal_mode (AclManagement (acl1 present))
          (init scripted [inl server_error]) in
      fst res = uncaught (Exception "unknown resource state")).
Proof.
  split; cbv zeta.
  - apply (proj1 (@client_exception_structured_failure quote scripted
                    normal_mode (AclManagement (acl1 present))
                    [inl (found acl1_metadata); inr "Bad Request"])
             {| req_method := PATCH; req_url := "/1.0/network-acls/acl1";
                req_payload := Some (Acl.payload (acl1 present));
                req_ok_errors := None |}
             "Bad Request").
    right. left. reflexivity.
  - apply (proj2 (@client_exception_structured_failure quote scripted
                    normal_mode (AclManagement (acl1 present))
                    [inl server_error])
             server_error [] PNone).
    + reflexivity.
    + reflexivity.
    + reflexivity.
Defined.

(** C4 as worded fails: a fetch answered with a status that is neither 200
    nor 404 ends the run with an exception nobody caught, not with a
    failure record. *)
Lemma unknown_state_escapes_run :
  let res :=
    run_manager quote scripted normal_mode (AclManagement (acl1 present))
      (init scripted [inl server_error]) in
  _incus_to_module_state server_error
  = Raise (Exception "unknown resource state")
  /\ fst res = uncaught (Exception "unknown resource state")
  /\ (forall f, fst res <> fail_json f)
  /\ reported_changed (fst res) = None.
Proof.
  cbv zeta. repeat split; try reflexivity. intros f H. discriminate.
Qed.

(** ** Converging to absent what is absent *)

(** C7, as the code has it.  When the target is absent and the first fetch
    classifies as absent, the trace holds no write; a run that exits
    reports [old_state="absent"]; and when the second fetch is answered as
    the first was, the run exits with [changed=False]. *)
Theorem absent_already_absent_issues_no_write :
  forall repr_str C module mg (w : World C) resp1 w1 m1,
    target mg = absent ->
    query_raw C (fetch_request mg) w = (inl resp1, w1) ->
    readable resp1 m1 "absent" ->
    let res := run_manager repr_str C module mg (init C w) in
    no_write (calls (snd res))
    /\ (forall r, fst res = exit_json r -> old_state r = PStr "absent")
    /\ (fst (query_raw C (fetch_request mg) w1) = inl resp1 ->
        exists r, fst res = exit_json r
                  /\ changed r = false
                  /\ old_state r = PStr "absent"
                  /\ length (calls (snd res)) = 2%nat).
Proof.
  intros repr_str C module mg w resp1' w1' m1' Ht Q [Hm Hs] res. subst res.
  assert (Hstep :
           converge repr_str C module mg
             (fetched C (result_key mg) (fetch_request mg)
                      resp1' m1' "absent" w1')
           = (Ok PNone,
              snd (converge repr_str C module mg
                     (fetched C (result_key mg) (fetch_request mg)
                              resp1' m1' "absent" w1')))
           /\ calls (snd (converge repr_str C module mg
                            (fetched C (result_key mg) (fetch_request mg)
                                     resp1' m1' "absent" w1')))
              = [(fetch_request mg, inl resp1')]
           /\ world (snd (converge repr_str C module mg
                            (fetched C (result_key mg) (fetch_request mg)
                                     resp1' m1' "absent" w1')))
              = w1').
  { destruct (@converge_absent_already_absent repr_str C module mg
                (fetched C (result_key mg) (fetch_request mg)
                         resp1' m1' "absent" w1') Ht)
      as [(_ & Hw & Hc & _) Hr].
    - unfold subscript. cbn [fetched diff before dict_get].
      destruct (String.eqb_spec "state" (result_key mg)) as [E | _].
      + symmetry in E. destruct (result_key_not_state _ E).
      + rewrite String.eqb_refl. reflexivity.
    - split; [ | split; assumption ].
      destruct (converge repr_str C module mg _) as [r s2].
      cbn [fst snd] in *. rewrite Hr. reflexivity. }
  destruct Hstep as (Hconv & Hcalls2 & Hworld2).
  run_inversion repr_str C module mg w;
    rewrite Q in Q1; inversion Q1; subst resp1' w1'; clear Q1;
    try (assert (E1 : m1 = m1') by congruence;
         assert (E2 : st1 = "absent") by congruence;
         subst m1 st1;
         rewrite Ha in Hconv, Hcalls2, Hworld2;
         cbn [snd] in Hconv, Hcalls2, Hworld2).
  - exfalso. destruct Hu as [Hu | [_ Hu]]; congruence.
  - discriminate.
  - rewrite Hres. cbn [fst snd refetched calls].
    rewrite Hworld2 in Q2. rewrite Hcalls2, Q2. cbn [fst app].
    split; [ repeat constructor | split; intros; discriminate ].
  - rewrite Hworld2 in Q2. rewrite Hcalls, Hres, Hcalls2, Q2. cbn [fst app].
    split; [ repeat constructor | split ].
    + intros; discriminate.
    + intros H. inversion H; subst resp2.
      exfalso. destruct Hu as [Hu | [_ Hu]]; congruence.
  - rewrite Hres. cbn [fst snd refetched calls].
    rewrite Hworld2 in Q2. rewrite Hcalls2, Q2. cbn [fst app].
    split; [ repeat constructor | split ].
    + intros r Hr. inversion Hr. reflexivity.
    + intros H. inversion H; subst resp2.
      rewrite Hm in Hm2. inversion Hm2; subst m2.
      eexists. split; [ reflexivity | ].
      cbn [changed old_state]. rewrite py_ne_refl.
      repeat split; reflexivity.
Qed.

Lemma absent_already_absent_issues_no_write_witness :
  let mg := AclManagement (acl1 absent) in
  let res :=
    run_manager quote scripted normal_mode mg
      (init scripted [inl not_found; inl not_found]) in
  target mg = absent
  /\ readable not_found PNone "absent"
  /\ no_write (calls (snd res))
  /\ (forall r, fst res = exit_json r -> old_state r = PStr "absent")
  /\ exists r, fst res = exit_json r
               /\ changed r = false
               /\ old_state r = PStr "absent"
               /\ length (calls (snd res)) = 2%nat.
Proof.
  cbv zeta.
  destruct (@absent_already_absent_issues_no_write quote scripted normal_mode
              (AclManagement (acl1 absent))
              [inl not_found; inl not_found] not_found [inl not_found] PNone
              eq_refl eq_refl (conj eq_refl eq_refl))
    as (Hn & Ho & Hc).
  split; [ reflexivity | split; [ split; reflexivity | ] ].
  split; [ exact Hn | split; [ exact Ho | exact (Hc eq_refl) ] ].
Defined.

(** C7 as worded fails: the flag compares the two reads, so a resource that
    appears between them is reported as a change although the run wrote
    nothing. *)
Lemma absent_already_absent_reports_changed :
  let mg := AclManagement (acl1 absent) in
  let res :=
    run_manager quote scripted normal_mode mg
      (init scripted [inl not_found; inl (found acl1_metadata)]) in
  target mg = absent
  /\ _incus_to_module_state not_found = Ok "absent"
  /\ no_write (calls (snd res))
  /\ exists r, fst res = exit_json r
               /\ old_state r = PStr "absent"
               /\ changed r = true.
Proof.
  cbv zeta.
  split; [ reflexivity | split; [ reflexivity | split ] ].
  - repeat constructor.
  - eexists. split; [ reflexivity | split; reflexivity ].
Qed.

(** ** The action log of the peer module *)

(** C9, as the code has it.  Under check mode the peer's [_absent], for a
    resource that is not absent, appends 'delete' to [self.actions] and
    returns [None]; its [_present] returns [None] too and appends 'update'
    when the resource was present and 'create' otherwise.  Neither calls
    the client. *)
Theorem peer_check_mode_records_actions :
  forall C module self (s : self_t C) st,
    check_mode module = true ->
    subscript (before (diff s)) "state" = Ok (PStr st) ->
    Peer._present module self s
    = (Ok PNone,
       {| diff := diff s;
          actions :=
            actions s
              ++ [if String.eqb st "present" then "update" else "create"];
          world := world s; calls := calls s |})
    /\ (st <> "absent" ->
        Peer._absent module self s
        = (Ok PNone,
           {| diff := diff s; actions := actions s ++ ["delete"];
              world := world s; calls := calls s |})).
Proof.
  intros C module self s st Hchk Hst. split.
  - unfold Peer._present, bind, get_before, ret, append_action.
    rewrite Hst, Hchk. cbn [py_eq negb].
    destruct (String.eqb st "present"); reflexivity.
  - intros Hne. unfold Peer._absent, bind, get_before, ret, append_action.
    rewrite Hst, Hchk. cbn [py_eq negb].
    destruct (String.eqb_spec st "absent") as [E | _]; [ contradiction | ].
    reflexivity.
Qed.

Lemma peer_check_mode_records_actions_witness :
  let s := fetched scripted "peer"
             (fetch_request (PeerManagement (peer1 present)))
             (found PNone) PNone "present" [] in
  actions (snd (Peer._present dry_run (peer1 present) s)) = ["update"]
  /\ actions (snd (Peer._absent dry_run (peer1 absent) s)) = ["delete"].
Proof.
  intros s. split.
  - rewrite (proj1 (@peer_check_mode_records_actions scripted dry_run
                      (peer1 present) s "present" eq_refl eq_refl)).
    reflexivity.
  - rewrite (proj2 (@peer_check_mode_records_actions scripted dry_run
                      (peer1 absent) s "present" eq_refl eq_refl)).
    + reflexivity.
    + discriminate.
Defined.

(** C9 as worded fails: under check mode the converge-to-present path
    returns [None] and still records its intended action. *)
Lemma peer_present_check_mode_records_create :
  let res :=
    run_manager quote scripted dry_run (PeerManagement (peer1 present))
      (init scripted [inl not_found; inl not_found]) in
  let s := fetched scripted "peer"
             (fetch_request (PeerManagement (peer1 present)))
             not_found PNone "absent" [inl not_found] in
  check_mode dry_run = true
  /\ fst (Peer._present dry_run (peer1 present) s) = Ok PNone
  /\ actions (snd (Peer._present dry_run (peer1 present) s)) = ["create"]
  /\ actions (snd res) = ["create"].
Proof. cbv zeta. repeat split; reflexivity. Qed.

(** ** The payload of the load balancer *)

Lemma self_ports_eq :
  forall self, LoadBalancer.self_ports self = LoadBalancer.ports self.
Proof.
  intros self. unfold LoadBalancer.self_ports.
  destruct (LoadBalancer.ports self); reflexivity.
Qed.

Lemma ports_payload_missing_key :
  forall q ports,
    Exists (fun port => dict_get "listen_port" port = None) ports ->
    LoadBalancer.ports_payload q ports = Raise (KeyError "listen_port").
Proof.
  intros q ports H. induction H as [port ports Hp | port ports _ IH];
    cbn [LoadBalancer.ports_payload].
  - unfold LoadBalancer.port_payload, subscript. rewrite Hp. reflexivity.
  - destruct (LoadBalancer.port_payload q port) as [p | e] eqn:E.
    + rewrite IH. reflexivity.
    + rewrite (port_payload_raises _ _ E). reflexivity.
Qed.

Lemma ports_payload_ok :
  forall q ports ps,
    LoadBalancer.ports_payload q ports = Ok ps ->
    exists ports',
      ps = map PDict ports'
      /\ Forall2
           (fun port port' =>
              exists v,
                dict_get "listen_port" port = Some v
                /\ port' = dict_set "listen_port" (PStr (py_str q v)) port)
           ports ports'.
Proof.
  intros q ports. induction ports as [ | port ports IH ]; intros ps;
    cbn [LoadBalancer.ports_payload].
  - intros H. inversion H. exists []. split; [ reflexivity | constructor ].
  - unfold LoadBalancer.port_payload at 1. unfold subscript.
    destruct (dict_get "listen_port" port) as [v | ] eqn:Ev; [ | discriminate ].
    destruct (LoadBalancer.ports_payload q ports) as [ps' | e];
      [ | discriminate ].
    intros H. inversion H; subst ps; clear H.
    destruct (IH ps' eq_refl) as (ports' & -> & HF).
    exists (dict_set "listen_port" (PStr (py_str q v)) port :: ports').
    split; [ reflexivity | ].
    constructor; [ exists v; split; [ exact Ev | reflexivity ] | exact HF ].
Qed.

(** C10. A load balancer converging to present whose ports hold a mapping
    without 'listen_port' raises [KeyError('listen_port')] while it builds
    the payload: whatever the check mode, once the first fetch is read the
    run ends with that exception uncaught, and the trace holds the first
    fetch only. *)
Theorem load_balancer_missing_listen_port_key_error :
  forall repr_str C module self (w : World C) resp1 w1 m1 st1,
    LoadBalancer.state self = present ->
    Exists (fun port => dict_get "listen_port" port = None)
           (LoadBalancer.ports self) ->
    query_raw C (fetch_request (LoadBalancerManagement self)) w
    = (inl resp1, w1) ->
    readable resp1 m1 st1 ->
    let res :=
      run_manager repr_str C module (LoadBalancerManagement self) (init C w) in
    LoadBalancer.payload repr_str self = Raise (KeyError "listen_port")
    /\ fst res = uncaught (KeyError "listen_port")
    /\ (forall f, fst res <> fail_json f)
    /\ calls (snd res)
       = [(fetch_request (LoadBalancerManagement self), inl resp1)].
Proof.
  intros repr_str C module self w resp1' w1' m1' st1' Hst Hex Q [Hm Hs] res.
  subst res.
  assert (Hpay : LoadBalancer.payload repr_str self
                 = Raise (KeyError "listen_port")).
  { unfold LoadBalancer.payload. rewrite self_ports_eq.
    rewrite (ports_payload_missing_key repr_str Hex). reflexivity. }
  assert (Hconv :
           converge repr_str C module (LoadBalancerManagement self)
             (fetched C "loadbalancer"
                      (fetch_request (LoadBalancerManagement self))
                      resp1' m1' st1' w1')
           = (Raise (KeyError "listen_port"),
              fetched C "loadbalancer"
                      (fetch_request (LoadBalancerManagement self))
                      resp1' m1' st1' w1')).
  { unfold converge, LoadBalancer.action. rewrite Hst.
    unfold LoadBalancer._present, bind, get_before, lift, subscript.
    cbn [fetched diff before dict_get String.eqb Ascii.eqb Bool.eqb].
    rewrite Hpay. reflexivity. }
  split; [ exact Hpay | ].
  run_inversion repr_str C module (LoadBalancerManagement self) w;
    rewrite Q in Q1; inversion Q1; subst resp1' w1'; clear Q1;
    try (assert (E1 : m1 = m1') by congruence;
         assert (E2 : st1 = st1') by congruence;
         subst m1 st1;
         cbn [result_key] in Ha; rewrite Ha in Hconv).
  - exfalso. destruct Hu as [Hu | [_ Hu]]; congruence.
  - inversion Hconv; subst e s2. rewrite Hres. cbn [fst snd fetched calls].
    split; [ reflexivity | split; [ intros f H; discriminate | reflexivity ] ].
  - discriminate.
  - discriminate.
  - discriminate.
Qed.

Lemma load_balancer_missing_listen_port_key_error_witness :
  let mg := LoadBalancerManagement (lb1 [ssh_port; nameless_port]) in
  let res :=
    run_manager quote scripted dry_run mg (init scripted [inl not_found]) in
  check_mode dry_run = true
  /\ LoadBalancer.payload quote (lb1 [ssh_port; nameless_port])
     = Raise (KeyError "listen_port")
  /\ fst res = uncaught (KeyError "listen_port")
  /\ (forall f, fst res <> fail_json f)
  /\ calls (snd res) = [(fetch_request mg, inl not_found)].
Proof.
  cbv zeta. split; [ reflexivity | ].
  apply (@load_balancer_missing_listen_port_key_error quote scripted dry_run
           (lb1 [ssh_port; nameless_port]) [inl not_found]
           not_found [] PNone "absent").
  - reflexivity.
  - apply Exists_cons_tl. apply Exists_cons_hd. reflexivity.
  - reflexivity.
  - split; reflexivity.
Defined.

(** C8. When the load balancer builds its payload, the 'ports' entry holds
    one mapping per port, in order, each with the keys of the port in their
    order, the value of 'listen_port' replaced by its [str] and every other
    value unchanged; that payload is what a write sends.  The forward module
    puts its list of ports in the payload as it is. *)
Theorem load_balancer_ports_coerced_forward_unmodified :
  (forall repr_str self d,
      LoadBalancer.payload repr_str self = Ok d ->
      exists ports',
        dict_get "ports" d = Some (PList (map PDict ports'))
        /\ Forall2
             (fun port port' =>
                exists v,
                  dict_get "listen_port" port = Some v
                  /\ dict_get "listen_port" port'
                     = Some (PStr (py_str repr_str v))
                  /\ (forall k, k <> "listen_port" ->
                                dict_get k port' = dict_get k port)
                  /\ dict_keys port' = dict_keys port)
             (LoadBalancer.ports self) ports')
  /\ (forall repr_str C module self (s : self_t C) st d,
         check_mode module = false ->
         subscript (before (diff s)) "state" = Ok (PStr st) ->
         LoadBalancer.payload repr_str self = Ok d ->
         exists req ans,
           calls (snd (LoadBalancer._present repr_str module self s))
           = (calls s ++ [(req, ans)])%list
           /\ is_write (req_method req) = true
           /\ req_payload req = Some d)
  /\ (forall self l,
         Forward.ports self = PList l ->
         dict_get "ports" (Forward.payload self) = Some (PList l)).
Proof.
  split; [ | split ].
  - intros q self d. unfold LoadBalancer.payload. rewrite self_ports_eq.
    destruct (LoadBalancer.ports_payload q (LoadBalancer.ports self))
      as [ps | e] eqn:E; [ | discriminate ].
    intros H. inversion H; subst d; clear H.
    destruct (ports_payload_ok _ _ E) as (ports' & -> & HF).
    exists ports'. split; [ reflexivity | ].
    refine (Forall2_impl _ _ HF). intros port port' (v & Hv & ->).
    exists v. split; [ exact Hv | split; [ | split ] ].
    + apply dict_get_set_same.
    + intros k Hk. apply dict_get_set_other. exact Hk.
    + apply dict_keys_set_present. rewrite Hv. discriminate.
  - intros q C module self s st d Hchk Hst Hpay.
    unfold LoadBalancer._present, bind, get_before, lift, ret, raise,
      client_query_raw.
    rewrite Hst, Hpay, Hchk. cbn [py_eq negb].
    destruct (String.eqb st "present");
      match goal with
      | |- context [query_raw ?C ?r ?w] =>
          destruct (query_raw C r w) as [[resp | m] w'];
          exists r; eexists; cbn [snd calls];
          (split; [ reflexivity | split; reflexivity ])
      end.
  - intros self l Hl. unfold Forward.payload. cbn [dict_get String.eqb
      Ascii.eqb Bool.eqb]. rewrite Hl. destruct l; reflexivity.
Qed.

Lemma load_balancer_ports_coerced_forward_unmodified_witness :
  (exists ports',
      dict_get "ports"
        [ ("listen_address", PStr "10.10.10.200");
          ("description", PStr "Load balancer");
          ("network", PStr "default");
          ("config", PDict []);
          ("backends", PList []);
          ("ports",
           PList [ PDict [ ("description", PStr "SSH");
                           ("protocol", PStr "tcp");
                           ("listen_port", PStr "22");
                           ("target_backend", PList [PStr "instance01"]) ] ]) ]
      = Some (PList (map PDict ports'))
      /\ Forall2
           (fun port port' =>
              exists v,
                dict_get "listen_port" port = Some v
                /\ dict_get "listen_port" port' = Some (PStr (py_str quote v))
                /\ (forall k, k <> "listen_port" ->
                              dict_get k port' = dict_get k port)
                /\ dict_keys port' = dict_keys port)
           [ssh_port] ports')
  /\ dict_get "ports" (Forward.payload (forward1 present))
     = Some (Forward.ports (forward1 present)).
Proof.
  split.
  - apply (proj1 load_balancer_ports_coerced_forward_unmodified
             quote (lb1 [ssh_port])).
    reflexivity.
  - apply (proj2 (proj2 load_balancer_ports_coerced_forward_unmodified)
             (forward1 present)).
    reflexivity.
Defined.

(** ** The URLs of the forward module *)

Lemma app_tail_neq :
  forall (A : Type) (l : list A) (x : A), l <> (l ++ [x])%list.
Proof.
  intros A l x H. apply (f_equal (@length A)) in H.
  rewrite length_app in H. cbn [length] in H. lia.
Qed.

Lemma forward_write_request :
  forall repr_str C module self (s : self_t C) req,
    write_step req s (converge repr_str C module (ForwardManagement self) s) ->
    forward_write self req.
Proof.
  intros q C module self s req (_ & _ & _ & Hc & _). revert Hc.
  unfold converge, Forward.action.
  destruct (Forward.state self); handler_unfold; handler_split;
    cbn [snd calls]; intros Hc;
    try (destruct (@app_tail_neq _ _ _ Hc));
    apply app_inj_tail in Hc; destruct Hc as [_ Hc];
    inversion Hc; subst req; unfold forward_write; cbn [req_method req_url];
    auto.
Qed.

(** Every request in the trace of a run is the manager's fetch or a write
    of its handler. *)
Lemma run_trace_calls :
  forall repr_str C module mg (w : World C) c,
    In c (calls (snd (run_manager repr_str C module mg (init C w)))) ->
    fst c = fetch_request mg
    \/ exists s, write_step (fst c) s (converge repr_str C module mg s).
Proof.
  intros q C module mg w c Hin.
  assert (Hmid : forall resp1 m1 st1 w1 r s2,
             converge q C module mg
               (fetched C (result_key mg) (fetch_request mg) resp1 m1 st1 w1)
             = (r, s2) ->
             forall c, In c (calls s2) ->
                       fst c = fetch_request mg
                       \/ exists s, write_step (fst c) s
                                      (converge q C module mg s)).
  { intros resp1 m1 st1 w1 r s2 Ha c' Hc'.
    destruct (@converge_step q C module mg
                (fetched C (result_key mg) (fetch_request mg)
                         resp1 m1 st1 w1))
      as [(_ & _ & Hc & _) | (req & Hstep)].
    - rewrite Ha in Hc. cbn [snd fetched calls] in Hc. rewrite Hc in Hc'.
      destruct Hc' as [<- | []]. left. reflexivity.
    - pose proof Hstep as (_ & _ & _ & Hc & _).
      rewrite Ha in Hc. cbn [snd fetched calls app] in Hc. rewrite Hc in Hc'.
      destruct Hc' as [<- | [<- | []]].
      + left. reflexivity.
      + right. eexists. exact Hstep. }
  run_inversion q C module mg w.
  - rewrite Hres in Hin. cbn [snd refetched calls init app] in Hin.
    destruct Hin as [<- | []]. left. reflexivity.
  - rewrite Hcalls in Hin. destruct Hin as [<- | []]. left. reflexivity.
  - rewrite Hres in Hin. cbn [snd] in Hin. exact (Hmid _ _ _ _ _ _ Ha _ Hin).
  - rewrite Hres in Hin. cbn [snd refetched calls] in Hin.
    apply in_app_or in Hin. destruct Hin as [Hin | [<- | []]].
    + exact (Hmid _ _ _ _ _ _ Ha _ Hin).
    + left. reflexivity.
  - rewrite Hcalls in Hin.
    apply in_app_or in Hin. destruct Hin as [Hin | [<- | []]].
    + exact (Hmid _ _ _ _ _ _ Ha _ Hin).
    + left. reflexivity.
  - rewrite Hres in Hin. cbn [snd refetched calls] in Hin.
    apply in_app_or in Hin. destruct Hin as [Hin | [<- | []]].
    + exact (Hmid _ _ _ _ _ _ Ha _ Hin).
    + left. reflexivity.
Qed.

(** What the forward module puts on the wire, in every run: it reads the
    collection under [/1.0/networks/] and writes under [/1.0/network/]. *)
Lemma forward_trace_urls :
  forall repr_str C module self (w : World C) c,
    In c (calls (snd (run_manager repr_str C module
                        (ForwardManagement self) (init C w)))) ->
    (req_method (fst c) = GET
     /\ req_url (fst c)
        = "/1.0/networks/" ++ Forward.network self ++ "/forwards")
    \/ forward_write self (fst c).
Proof.
  intros q C module self w c Hin.
  destruct (run_trace_calls _ _ _ _ _ _ Hin) as [-> | (s & Hs)].
  - left. split; reflexivity.
  - right. exact (@forward_write_request _ _ _ _ _ _ Hs).
Qed.

(** C6, on the code.  The forward [forward1] on network net0, listening on
    10.0.0.1, run against a remote side that accepts everything: the fetch
    reads the collection, and the create, the update and the delete go to
    paths under [/1.0/network/net0], none of them under
    [/1.0/networks/net0/forwards]. *)
Theorem forward_requests_on_net0 :
  let run_with st script :=
    wire (calls (snd (run_manager quote scripted normal_mode
                        (ForwardManagement (forward1 st))
                        (init scripted script)))) in
  run_with present [inl not_found; inl created; inl (found (PList []))]
  = [ (GET, "/1.0/networks/net0/forwards");
      (POST, "/1.0/network/net0/forwards");
      (GET, "/1.0/networks/net0/forwards") ]
  /\ run_with present [inl (found (PList [])); inl created;
                       inl (found (PList []))]
     = [ (GET, "/1.0/networks/net0/forwards");
         (PATCH, "/1.0/network/net0/forwards/10.0.0.1");
         (GET, "/1.0/networks/net0/forwards") ]
  /\ run_with absent [inl (found (PList [])); inl created;
                      inl (found (PList []))]
     = [ (GET, "/1.0/networks/net0/forwards");
         (DELETE, "/1.0/network/net0/forwards/10.0.0.1");
         (GET, "/1.0/networks/net0/forwards") ]
  /\ String.prefix "/1.0/networks/net0/forwards" "/1.0/network/net0/forwards"
     = false
  /\ String.prefix "/1.0/networks/net0/forwards"
                   "/1.0/network/net0/forwards/10.0.0.1"
     = false
  /\ "/1.0/networks/net0/forwards" <> "/1.0/networks/net0/forwards/10.0.0.1".
Proof.
  cbv zeta. repeat split; try reflexivity. discriminate.
Qed.


(** * Further properties of the handlers and of [run] *)


(** A response classifies as "present" or as "absent", nothing else. *)
Lemma classify_range :
  forall resp st,
    _incus_to_module_state resp = Ok st -> st = "present" \/ st = "absent".
Proof.
  intros resp st. unfold _incus_to_module_state.
  destruct (subscript resp "status_code") as [sc | e]; [ | discriminate ].
  destruct (py_eq sc (PInt 200)).
  - intros H. inversion H. left. reflexivity.
  - destruct (subscript resp "error_code") as [ec | e]; [ | discriminate ].
    destruct (py_eq ec (PInt 404)); [ | discriminate ].
    intros H. inversion H. right. reflexivity.
Qed.

(** The write a handler issues: when, to which method, with which
    arguments. *)
Lemma write_request_shape :
  forall repr_str C module mg (s : self_t C) req,
    write_step req s (converge repr_str C module mg s) ->
    check_mode module = false
    /\ req_ok_errors req = None
    /\ exists st,
        subscript (before (diff s)) "state" = Ok st
        /\ match target mg with
           | present =>
               req_method req
               = (if py_eq st (PStr "present") then PATCH else POST)
               /\ exists d, manager_payload repr_str mg = Ok d
                            /\ req_payload req = Some d
           | absent =>
               py_eq st (PStr "absent") = false
               /\ req_method req = DELETE
               /\ req_payload req = None
           end.
Proof.
  intros q C module mg s req (_ & _ & _ & Hc & _). revert Hc.
  destruct mg as [p | p | p | p | p]; unfold converge;
    unfold Acl.action, Zone.action, Peer.action, Forward.action,
      LoadBalancer.action; cbn [target manager_payload];
    match goal with
    | |- context [match ?st with present => _ | absent => _ end] =>
        destruct st
    end;
    handler_unfold; handler_split; cbn [snd calls]; intros Hc;
    try (destruct (@app_tail_neq _ _ _ Hc));
    apply app_inj_tail in Hc; destruct Hc as [_ Hc];
    inversion Hc; subst req; cbn [req_method req_url req_payload req_ok_errors];
    (split; [ reflexivity | split; [ reflexivity | ] ]);
    eexists; (split; [ reflexivity | ]);
    repeat match goal with
           | E : py_eq _ _ = _ |- _ => rewrite E; clear E
           end;
    repeat split; eauto.
Qed.


(** The whole trace of a run: the first fetch alone; or two fetches around
    a handler that called nothing; or the first fetch, the one write of the
    handler and, when the write was accepted, the second fetch. *)
Lemma run_trace :
  forall repr_str C module mg (w : World C),
    let cs := calls (snd (run_manager repr_str C module mg (init C w))) in
    let a1 := fst (query_raw C (fetch_request mg) w) in
    let w1 := snd (query_raw C (fetch_request mg) w) in
    cs = [(fetch_request mg, a1)]
    \/ exists resp1 m1 st1,
        a1 = inl resp1
        /\ readable resp1 m1 st1
        /\ let s1 := fetched C (result_key mg) (fetch_request mg)
                             resp1 m1 st1 w1 in
           (quiet_step s1 (converge repr_str C module mg s1)
            /\ exists a2,
                cs = [(fetch_request mg, a1); (fetch_request mg, a2)])
           \/ exists req,
               write_step req s1 (converge repr_str C module mg s1)
               /\ let ans := fst (query_raw C req w1) in
                  cs = [(fetch_request mg, a1); (req, ans)]
                  \/ exists r a2,
                      ans = inl r
                      /\ cs = [(fetch_request mg, a1); (req, ans);
                               (fetch_request mg, a2)].
Proof.
  intros q C module mg w. cbv zeta.
  run_inversion q C module mg w; rewrite Q1; cbn [fst snd].
  - left. rewrite Hres. reflexivity.
  - left. exact Hcalls.
  - destruct (@converge_step q C module mg
                (fetched C (result_key mg) (fetch_request mg)
                         resp1 m1 st1 w1))
      as [Hq | (req & Hstep)].
    + left. destruct Hq as (_ & _ & Hc & _).
      rewrite Ha in Hc. rewrite Hres. cbn [snd] in *. exact Hc.
    + right. exists resp1, m1, st1.
      split; [ reflexivity | split; [ split; assumption | ] ].
      right. exists req. split; [ exact Hstep | ].
      left. destruct Hstep as (_ & _ & _ & Hc & _).
      rewrite Ha in Hc. rewrite Hres. cbn [snd] in *. exact Hc.
  - right. exists resp1, m1, st1.
    split; [ reflexivity | split; [ split; assumption | ] ].
    destruct (@converge_step q C module mg
                (fetched C (result_key mg) (fetch_request mg)
                         resp1 m1 st1 w1))
      as [Hq | (req & Hstep)].
    + left. split; [ exact Hq | ]. destruct Hq as (_ & _ & Hc & _).
      rewrite Ha in Hc. cbn [snd] in Hc.
      exists (inr m0). rewrite Hres. cbn [snd refetched calls].
      rewrite Hc. reflexivity.
    + right. exists req. split; [ exact Hstep | ].
      destruct Hstep as (_ & _ & _ & Hc & Hr).
      rewrite Ha in Hc, Hr. cbn [fst snd fetched world] in Hc, Hr.
      right.
      destruct (fst (query_raw C req w1)) as [r | m'] eqn:E;
        [ | discriminate ].
      exists r, (inr m0). split; [ reflexivity | ].
      rewrite Hres. cbn [snd refetched calls]. rewrite Hc. reflexivity.
  - right. exists resp1, m1, st1.
    split; [ reflexivity | split; [ split; assumption | ] ].
    destruct (@converge_step q C module mg
                (fetched C (result_key mg) (fetch_request mg)
                         resp1 m1 st1 w1))
      as [Hq | (req & Hstep)].
    + left. split; [ exact Hq | ]. destruct Hq as (_ & _ & Hc & _).
      rewrite Ha in Hc. cbn [snd] in Hc.
      exists (inl resp2). rewrite Hcalls, Hc. reflexivity.
    + right. exists req. split; [ exact Hstep | ].
      destruct Hstep as (_ & _ & _ & Hc & Hr).
      rewrite Ha in Hc, Hr. cbn [fst snd fetched world] in Hc, Hr.
      right.
      destruct (fst (query_raw C req w1)) as [r | m'] eqn:E;
        [ | discriminate ].
      exists r, (inl resp2). split; [ reflexivity | ].
      rewrite Hcalls, Hc. reflexivity.
  - right. exists resp1, m1, st1.
    split; [ reflexivity | split; [ split; assumption | ] ].
    destruct (@converge_step q C module mg
                (fetched C (result_key mg) (fetch_request mg)
                         resp1 m1 st1 w1))
      as [Hq | (req & Hstep)].
    + left. split; [ exact Hq | ]. destruct Hq as (_ & _ & Hc & _).
      rewrite Ha in Hc. cbn [snd] in Hc.
      exists (inl resp2). rewrite Hres. cbn [snd refetched calls].
      rewrite Hc. reflexivity.
    + right. exists req. split; [ exact Hstep | ].
      destruct Hstep as (_ & _ & _ & Hc & Hr).
      rewrite Ha in Hc, Hr. cbn [fst snd fetched world] in Hc, Hr.
      right.
      destruct (fst (query_raw C req w1)) as [r | m'] eqn:E;
        [ | discriminate ].
      exists r, (inl resp2). split; [ reflexivity | ].
      rewrite Hres. cbn [snd refetched calls]. rewrite Hc. reflexivity.
Qed.

(** X1. Every run starts with the manager's fetch, issues at most two more
    requests and, among all its requests, at most one write. *)
Theorem run_issues_at_most_one_write :
  forall repr_str C module mg (w : World C),
    let cs := calls (snd (run_manager repr_str C module mg (init C w))) in
    (exists a1 rest,
        cs = (fetch_request mg, a1) :: rest /\ (length rest <= 2)%nat)
    /\ (length (filter write_call cs) <= 1)%nat.
Proof.
  intros q C module mg w. cbv zeta.
  destruct (@run_trace q C module mg w)
    as [-> | (resp1 & m1 & st1 & _ & _ &
              [(_ & a2 & ->)
              | (req & (Hw & _) & [-> | (r & a2 & _ & ->)])])];
    (split; [ do 2 eexists; split; [ reflexivity | cbn [length]; lia ] | ]);
    unfold write_call;
    cbn [filter fst fetch_request req_method is_write length];
    try rewrite Hw;
    cbn [filter fst fetch_request req_method is_write length]; lia.
Qed.

(** X2. The arguments of every request of a run: a [GET] is the manager's
    fetch, with [ok_errors=[404]] and no payload; a [POST] or a [PATCH]
    carries the payload the manager built and no [ok_errors]; a [DELETE]
    carries neither. *)
Theorem trace_request_arguments :
  forall repr_str C module mg (w : World C) c,
    In c (calls (snd (run_manager repr_str C module mg (init C w)))) ->
    match req_method (fst c) with
    | GET => fst c = fetch_request mg
    | DELETE => req_payload (fst c) = None /\ req_ok_errors (fst c) = None
    | _ => (exists d, manager_payload repr_str mg = Ok d
                      /\ req_payload (fst c) = Some d)
           /\ req_ok_errors (fst c) = None
    end.
Proof.
  intros q C module mg w c Hin.
  destruct (run_trace_calls _ _ _ _ _ _ Hin) as [-> | (s & Hs)].
  - reflexivity.
  - pose proof Hs as (Hw & _).
    destruct (@write_request_shape _ _ _ _ _ _ Hs)
      as (_ & Hok & st & _ & Hshape).
    destruct (target mg).
    + destruct Hshape as (Hm & d & Hd & Hp). rewrite Hm.
      destruct (py_eq st (PStr "present"));
        (split; [ exists d; split; assumption | exact Hok ]).
    + destruct Hshape as (_ & -> & Hp). split; assumption.
Qed.

Lemma trace_request_arguments_witness :
  let c :=
    ({| req_method := POST; req_url := "/1.0/network-acls";
        req_payload := Some (Acl.payload (acl1 present));
        req_ok_errors := None |}, inl created) in
  In c (calls (snd (run_manager quote scripted normal_mode
                      (AclManagement (acl1 present))
                      (init scripted [inl not_found; inl created;
                                      inl (found acl1_metadata)]))))
  /\ (exists d, manager_payload quote (AclManagement (acl1 present)) = Ok d
                /\ req_payload (fst c) = Some d)
  /\ req_ok_errors (fst c) = None.
Proof.
  intros c.
  assert (Hin : In c (calls (snd (run_manager quote scripted normal_mode
                      (AclManagement (acl1 present))
                      (init scripted [inl not_found; inl created;
                                      inl (found acl1_metadata)]))))).
  { right. left. reflexivity. }
  split; [ exact Hin | ].
  exact (@trace_request_arguments quote scripted normal_mode
           (AclManagement (acl1 present))
           [inl not_found; inl created; inl (found acl1_metadata)] c Hin).
Defined.

Lemma fetched_state :
  forall C mg resp1 m1 st1 (w1 : World C),
    subscript
      (before (diff (fetched C (result_key mg) (fetch_request mg)
                             resp1 m1 st1 w1)))
      "state"
    = Ok (PStr st1).
Proof. intros C [p | p | p | p | p] resp1 m1 st1 w1; reflexivity. Qed.

(** A write of the trace is the write of the handler, run on the object as
    the first fetch left it. *)
Lemma trace_write_origin :
  forall repr_str C module mg (w : World C) c,
    In c (calls (snd (run_manager repr_str C module mg (init C w)))) ->
    write_call c = true ->
    exists resp1 m1 st1,
      fst (query_raw C (fetch_request mg) w) = inl resp1
      /\ readable resp1 m1 st1
      /\ write_step (fst c)
           (fetched C (result_key mg) (fetch_request mg) resp1 m1 st1
                    (snd (query_raw C (fetch_request mg) w)))
           (converge repr_str C module mg
              (fetched C (result_key mg) (fetch_request mg) resp1 m1 st1
                       (snd (query_raw C (fetch_request mg) w)))).
Proof.
  intros q C module mg w c Hin Hw.
  destruct (@run_trace q C module mg w)
    as [Hcs | (resp1 & m1 & st1 & Ha1 & Hr &
               [(_ & a2 & Hcs)
               | (req & Hstep & [Hcs | (r & a2 & _ & Hcs)])])];
    rewrite Hcs in Hin; cbn [In] in Hin;
    repeat match goal with
           | H : _ \/ _ |- _ => destruct H as [H | H]
           | H : False |- _ => destruct H
           end;
    subst c; try discriminate Hw;
    exists resp1, m1, st1;
    (split; [ exact Ha1 | split; [ exact Hr | exact Hstep ] ]).
Qed.

(** X3. A write only happens outside check mode and after a first response
    that classified: a [POST] when the target is present and the resource
    was absent, a [PATCH] when the target is present and the resource was
    present, a [DELETE] when the target is absent and the resource was
    present. *)
Theorem write_method_reflects_state :
  forall repr_str C module mg (w : World C) c,
    In c (calls (snd (run_manager repr_str C module mg (init C w)))) ->
    write_call c = true ->
    check_mode module = false
    /\ exists resp1 m1 st1,
        fst (query_raw C (fetch_request mg) w) = inl resp1
        /\ readable resp1 m1 st1
        /\ match req_method (fst c) with
           | POST => target mg = present /\ st1 = "absent"
           | PATCH => target mg = present /\ st1 = "present"
           | DELETE => target mg = absent /\ st1 = "present"
           | GET => False
           end.
Proof.
  intros q C module mg w c Hin Hw.
  destruct (trace_write_origin _ _ _ _ _ _ Hin Hw)
    as (resp1 & m1 & st1 & Ha1 & Hr & Hstep).
  destruct (@write_request_shape _ _ _ _ _ _ Hstep)
    as (Hchk & _ & st & Hst & Hshape).
  rewrite fetched_state in Hst. inversion Hst; subst st; clear Hst.
  split; [ exact Hchk | ].
  exists resp1, m1, st1. split; [ exact Ha1 | split; [ exact Hr | ] ].
  destruct Hr as [_ Hcl].
  destruct (classify_range _ Hcl) as [-> | ->];
    destruct (target mg); cbn [py_eq String.eqb Ascii.eqb Bool.eqb] in Hshape.
  - destruct Hshape as (-> & _). split; reflexivity.
  - destruct Hshape as (_ & -> & _). split; reflexivity.
  - destruct Hshape as (-> & _). split; reflexivity.
  - destruct Hshape as (Hf & _). discriminate.
Qed.

Lemma write_method_reflects_state_witness :
  let c :=
    ({| req_method := DELETE; req_url := "/1.0/network-acls/acl1";
        req_payload := None; req_ok_errors := None |}, inl created) in
  let script := [inl (found acl1_metadata); inl created; inl not_found] in
  In c (calls (snd (run_manager quote scripted normal_mode
                      (AclManagement (acl1 absent)) (init scripted script))))
  /\ write_call c = true
  /\ check_mode normal_mode = false
  /\ exists resp1 m1 st1,
      fst (query_raw scripted
             (fetch_request (AclManagement (acl1 absent))) script)
      = inl resp1
      /\ readable resp1 m1 st1
      /\ target (AclManagement (acl1 absent)) = absent /\ st1 = "present".
Proof.
  intros c script.
  assert (Hin : In c (calls (snd (run_manager quote scripted normal_mode
                      (AclManagement (acl1 absent))
                      (init scripted script))))).
  { right. left. reflexivity. }
  split; [ exact Hin | split; [ reflexivity | ] ].
  exact (@write_method_reflects_state quote scripted normal_mode
           (AclManagement (acl1 absent)) script c Hin eq_refl).
Defined.



(** Outside check mode a handler that converges to present always writes,
    once its payload is built. *)
Lemma converge_present_writes :
  forall repr_str C module mg (s : self_t C) st d,
    check_mode module = false ->
    target mg = present ->
    subscript (before (diff s)) "state" = Ok st ->
    manager_payload repr_str mg = Ok d ->
    exists req, write_step req s (converge repr_str C module mg s).
Proof.
  intros q C module [p | p | p | p | p] s st d Hchk Ht Hst Hpay;
    cbn [target manager_payload] in Ht, Hpay; unfold converge;
    unfold Acl.action, Zone.action, Peer.action, Forward.action,
      LoadBalancer.action;
    rewrite Ht; handler_unfold; rewrite Hst, Hchk; try rewrite Hpay;
    handler_split; eexists; write_tac.
Qed.

(** Outside check mode a handler that converges to absent deletes what is
    not absent. *)
Lemma converge_absent_deletes :
  forall repr_str C module mg (s : self_t C) st,
    check_mode module = false ->
    target mg = absent ->
    subscript (before (diff s)) "state" = Ok st ->
    py_eq st (PStr "absent") = false ->
    exists req, write_step req s (converge repr_str C module mg s).
Proof.
  intros q C module [p | p | p | p | p] s st Hchk Ht Hst Hne;
    cbn [target] in Ht; unfold converge;
    unfold Acl.action, Zone.action, Peer.action, Forward.action,
      LoadBalancer.action;
    rewrite Ht; handler_unfold; rewrite Hst, Hne, Hchk;
    handler_split; eexists; write_tac.
Qed.

(** After a write step the trace of the run starts with the fetch and that
    write, and ends there or with the second fetch. *)
Lemma run_after_write_step :
  forall repr_str C module mg (w : World C) resp1 w1 m1 st1 req,
    query_raw C (fetch_request mg) w = (inl resp1, w1) ->
    readable resp1 m1 st1 ->
    write_step req
      (fetched C (result_key mg) (fetch_request mg) resp1 m1 st1 w1)
      (converge repr_str C module mg
         (fetched C (result_key mg) (fetch_request mg) resp1 m1 st1 w1)) ->
    let cs := calls (snd (run_manager repr_str C module mg (init C w))) in
    let ans := fst (query_raw C req w1) in
    (cs = [(fetch_request mg, inl resp1); (req, ans)]
     /\ exists m, ans = inr m)
    \/ (exists r a2,
           ans = inl r
           /\ cs = [(fetch_request mg, inl resp1); (req, ans);
                    (fetch_request mg, a2)]
           /\ a2 = fst (query_raw C (fetch_request mg)
                          (snd (query_raw C req w1)))).
Proof.
  intros q C module mg w resp1' w1' m1' st1' req Q [Hm Hs]
         (_ & _ & Hw & Hc & Hr). cbv zeta.
  cbn [fetched world calls app] in Hw, Hc, Hr.
  run_inversion q C module mg w;
    rewrite Q in Q1; inversion Q1; subst resp1' w1'; clear Q1;
    try (assert (E1 : m1 = m1') by congruence;
         assert (E2 : st1 = st1') by congruence;
         subst m1 st1;
         rewrite Ha in Hw, Hc, Hr; cbn [fst snd] in Hw, Hc, Hr).
  - exfalso. destruct Hu as [Hu | [_ Hu]]; congruence.
  - left. rewrite Hres. cbn [snd]. split; [ exact Hc | ].
    destruct (fst (query_raw C req w1)); [ discriminate | eexists; reflexivity ].
  - right. destruct (fst (query_raw C req w1)) as [r | m']; [ | discriminate ].
    exists r, (inr m0). split; [ reflexivity | ].
    rewrite Hres. cbn [snd refetched calls]. rewrite Hc.
    split; [ reflexivity | ]. rewrite <- Hw, Q2. reflexivity.
  - right. destruct (fst (query_raw C req w1)) as [r | m']; [ | discriminate ].
    exists r, (inl resp2). split; [ reflexivity | ].
    rewrite Hcalls, Hc.
    split; [ reflexivity | ]. rewrite <- Hw, Q2. reflexivity.
  - right. destruct (fst (query_raw C req w1)) as [r | m']; [ | discriminate ].
    exists r, (inl resp2). split; [ reflexivity | ].
    rewrite Hres. cbn [snd refetched calls]. rewrite Hc.
    split; [ reflexivity | ]. rewrite <- Hw, Q2. reflexivity.
Qed.

(** X5. Outside check mode a run that converges to present always writes,
    whether or not the resource already matches: after a first response
    that classified, and once the payload is built, the second request is a
    [PATCH] if the resource was present and a [POST] otherwise, it carries
    the payload, and the second fetch follows exactly when the write was
    accepted. *)
Theorem present_always_writes :
  forall repr_str C module mg (w : World C) resp1 w1 m1 st1 d,
    check_mode module = false ->
    target mg = present ->
    query_raw C (fetch_request mg) w = (inl resp1, w1) ->
    readable resp1 m1 st1 ->
    manager_payload repr_str mg = Ok d ->
    exists req,
      req_method req = (if String.eqb st1 "present" then PATCH else POST)
      /\ req_payload req = Some d
      /\ req_ok_errors req = None
      /\ let cs := calls (snd (run_manager repr_str C module mg (init C w))) in
         match fst (query_raw C req w1) with
         | inr m => cs = [(fetch_request mg, inl resp1); (req, inr m)]
         | inl r =>
             exists a2, cs = [(fetch_request mg, inl resp1); (req, inl r);
                              (fetch_request mg, a2)]
         end.
Proof.
  intros q C module mg w resp1 w1 m1 st1 d Hchk Ht Q Hr Hpay.
  destruct (@converge_present_writes q C module mg
              (fetched C (result_key mg) (fetch_request mg) resp1 m1 st1 w1)
              (PStr st1) d Hchk Ht (fetched_state _ _ _ _ _ _) Hpay)
    as (req & Hstep).
  exists req.
  destruct (@write_request_shape _ _ _ _ _ _ Hstep)
    as (_ & Hok & st & Hst & Hshape).
  rewrite fetched_state in Hst. inversion Hst; subst st; clear Hst.
  rewrite Ht in Hshape. destruct Hshape as (Hm & d' & Hd' & Hp).
  rewrite Hpay in Hd'. inversion Hd'; subst d'.
  split; [ exact Hm | split; [ exact Hp | split; [ exact Hok | ] ] ].
  cbv zeta.
  destruct (@run_after_write_step q C module mg w resp1 w1 m1 st1 req
              Q Hr Hstep)
    as [(Hcs & m & Hans) | (r & a2 & Hans & Hcs & _)];
    rewrite Hans in *.
  - exact Hcs.
  - exists a2. exact Hcs.
Qed.

Lemma present_always_writes_witness :
  let mg := AclManagement (acl1 present) in
  let script :=
    [inl (found acl1_metadata); inl created; inl (found acl1_metadata)] in
  check_mode normal_mode = false
  /\ target mg = present
  /\ readable (found acl1_metadata) acl1_metadata "present"
  /\ exists req,
      req_method req = PATCH
      /\ req_payload req = Some (Acl.payload (acl1 present))
      /\ req_ok_errors req = None
      /\ match fst (query_raw scripted req
                      [inl created; inl (found acl1_metadata)]) with
         | inr m =>
             calls (snd (run_manager quote scripted normal_mode mg
                           (init scripted script)))
             = [(fetch_request mg, inl (found acl1_metadata)); (req, inr m)]
         | inl r =>
             exists a2,
               calls (snd (run_manager quote scripted normal_mode mg
                             (init scripted script)))
               = [(fetch_request mg, inl (found acl1_metadata));
                  (req, inl r); (fetch_request mg, a2)]
         end.
Proof.
  intros mg script.
  split; [ reflexivity | split; [ reflexivity | split ] ].
  - split; reflexivity.
  - exact (@present_always_writes quote scripted normal_mode mg script
             (found acl1_metadata)
             [inl created; inl (found acl1_metadata)]
             acl1_metadata "present" (Acl.payload (acl1 present))
             eq_refl eq_refl eq_refl (conj eq_refl eq_refl) eq_refl).
Defined.

(** X6. Outside check mode a run that converges to absent a resource its
    first fetch found present issues one [DELETE], without payload, and
    fetches again exactly when the delete was accepted. *)
Theorem absent_deletes_present_resource :
  forall repr_str C module mg (w : World C) resp1 w1 m1,
    check_mode module = false ->
    target mg = absent ->
    query_raw C (fetch_request mg) w = (inl resp1, w1) ->
    readable resp1 m1 "present" ->
    exists req,
      req_method req = DELETE
      /\ req_payload req = None
      /\ req_ok_errors req = None
      /\ let cs := calls (snd (run_manager repr_str C module mg (init C w))) in
         match fst (query_raw C req w1) with
         | inr m => cs = [(fetch_request mg, inl resp1); (req, inr m)]
         | inl r =>
             exists a2, cs = [(fetch_request mg, inl resp1); (req, inl r);
                              (fetch_request mg, a2)]
         end.
Proof.
  intros q C module mg w resp1 w1 m1 Hchk Ht Q Hr.
  destruct (@converge_absent_deletes q C module mg
              (fetched C (result_key mg) (fetch_request mg)
                       resp1 m1 "present" w1)
              (PStr "present") Hchk Ht (fetched_state _ _ _ _ _ _) eq_refl)
    as (req & Hstep).
  exists req.
  destruct (@write_request_shape _ _ _ _ _ _ Hstep)
    as (_ & Hok & st & Hst & Hshape).
  rewrite Ht in Hshape. destruct Hshape as (_ & Hm & Hp).
  split; [ exact Hm | split; [ exact Hp | split; [ exact Hok | ] ] ].
  cbv zeta.
  destruct (@run_after_write_step q C module mg w resp1 w1 m1 "present" req
              Q Hr Hstep)
    as [(Hcs & m & Hans) | (r & a2 & Hans & Hcs & _)];
    rewrite Hans in *.
  - exact Hcs.
  - exists a2. exact Hcs.
Qed.

Lemma absent_deletes_present_resource_witness :
  let mg := ZoneManagement
              {| Zone.name := "example.org"; Zone.project := "default";
                 Zone.description := PNone; Zone.config := PNone;
                 Zone.state := absent |} in
  let script := [inl (found (PDict [])); inl created; inl not_found] in
  exists req,
    req_method req = DELETE
    /\ req_payload req = None
    /\ req_ok_errors req = None
    /\ match fst (query_raw scripted req [inl created; inl not_found]) with
       | inr m =>
           calls (snd (run_manager quote scripted normal_mode mg
                         (init scripted script)))
           = [(fetch_request mg, inl (found (PDict []))); (req, inr m)]
       | inl r =>
           exists a2,
             calls (snd (run_manager quote scripted normal_mode mg
                           (init scripted script)))
             = [(fetch_request mg, inl (found (PDict []))); (req, inl r);
                (fetch_request mg, a2)]
       end.
Proof.
  intros mg script.
  exact (@absent_deletes_present_resource quote scripted normal_mode mg script
           (found (PDict [])) [inl created; inl not_found] (PDict [])
           eq_refl eq_refl eq_refl (conj eq_refl eq_refl)).
Defined.

(** ** The payload and the action log of the peer module *)

(** X7. The peer payload always holds 'name', 'config' and 'description';
    'target_network', 'target_integration' and 'type' are there exactly when
    their parameter is truthy, and 'target_project' exactly when both it and
    'target_network' are; so none of the four optional entries is ever sent
    as [None]. *)
Theorem peer_payload_optional_fields :
  forall self,
    let d := Peer.payload self in
    dict_get "name" d = Some (PStr (Peer.name self))
    /\ dict_get "config" d = Some (Peer.config self)
    /\ dict_get "description" d = Some (Peer.description self)
    /\ dict_get "target_network" d
       = (if py_truthy (PStr (Peer.target_network self))
          then Some (PStr (Peer.target_network self)) else None)
    /\ dict_get "target_project" d
       = (if py_truthy (PStr (Peer.target_network self))
             && py_truthy (Peer.target_project self)
          then Some (Peer.target_project self) else None)
    /\ dict_get "target_integration" d
       = (if py_truthy (Peer.target_integration self)
          then Some (Peer.target_integration self) else None)
    /\ dict_get "type" d
       = (if py_truthy (Peer.type self) then Some (Peer.type self) else None)
    /\ (forall k,
           In k ["target_network"; "target_project"; "target_integration";
                 "type"] ->
           dict_get k d <> Some PNone).
Proof.
  intros self d. subst d. unfold Peer.payload.
  destruct (py_truthy (PStr (Peer.target_network self))) eqn:Etn;
    destruct (py_truthy (Peer.target_project self)) eqn:Etp;
    destruct (py_truthy (Peer.target_integration self)) eqn:Eti;
    destruct (py_truthy (Peer.type self)) eqn:Ety;
    cbn [andb dict_set dict_get String.eqb Ascii.eqb Bool.eqb];
    repeat (split; [ reflexivity | ]);
    intros k Hk; cbn [In] in Hk;
    repeat match goal with
           | H : _ \/ _ |- _ => destruct H as [H | H]
           | H : False |- _ => destruct H
           end;
    subst k; cbn [dict_get String.eqb Ascii.eqb Bool.eqb];
    try discriminate;
    intros H; inversion H as [H'];
    repeat match goal with
           | E : py_truthy ?x = true, H' : ?x = PNone |- _ =>
               rewrite H' in E; discriminate E
           end.
Qed.

(** X8. Outside check mode the peer's [_absent] never touches
    [self.actions], and its [_present] records 'create' or 'update' exactly
    when it returns, that is when the write was accepted: a write that
    raises leaves the log as it was. *)
Theorem peer_records_only_completed_writes :
  forall C module self (s : self_t C),
    check_mode module = false ->
    actions (snd (Peer._absent module self s)) = actions s
    /\ (forall v,
           fst (Peer._present module self s) = Ok v ->
           exists a, (a = "create" \/ a = "update")
                     /\ actions (snd (Peer._present module self s))
                        = (actions s ++ [a])%list)
    /\ (forall e,
           fst (Peer._present module self s) = Raise e ->
           actions (snd (Peer._present module self s)) = actions s).
Proof.
  intros C module self s Hchk. split; [ | split ].
  - handler_unfold. rewrite Hchk. handler_split; reflexivity.
  - intros v. handler_unfold. rewrite Hchk. handler_split;
      cbn [fst snd actions]; intros H; try discriminate H;
      eexists; (split; [ | reflexivity ]); auto.
  - intros e. handler_unfold. rewrite Hchk. handler_split;
      cbn [fst snd actions]; intros H; try discriminate H; reflexivity.
Qed.

Lemma peer_records_only_completed_writes_witness :
  let s := fetched scripted "peer"
             (fetch_request (PeerManagement (peer1 present)))
             not_found PNone "absent" [inr "Bad Request"] in
  let s' := fetched scripted "peer"
              (fetch_request (PeerManagement (peer1 present)))
              not_found PNone "absent" [inl created] in
  check_mode normal_mode = false
  /\ actions (snd (Peer._present normal_mode (peer1 present) s)) = []
  /\ exists a, (a = "create" \/ a = "update")
               /\ actions (snd (Peer._present normal_mode (peer1 present) s'))
                  = [a].
Proof.
  intros s s'. split; [ reflexivity | split ].
  - exact (proj2 (proj2 (@peer_records_only_completed_writes scripted
                           normal_mode (peer1 present) s eq_refl))
             (IncusClientException "Bad Request") eq_refl).
  - exact (proj1 (proj2 (@peer_records_only_completed_writes scripted
                           normal_mode (peer1 present) s' eq_refl))
             (PDict created) eq_refl).
Defined.

Section RunActions.
Variable C : IncusClient.
Variable module : AnsibleModule.
Variable key : string.
Variable greq : request.
Variable action : M C pyval.

(** [run] itself never touches [self.actions]: at the end the log is empty
    or what the handler made of an empty log. *)
Lemma run_actions :
  forall w,
    let res := run module key (client_query_raw greq) action (init C w) in
    actions (snd res) = []
    \/ exists s1, actions s1 = []
                  /\ actions (snd res) = actions (snd (action s1)).
Proof.
  intros w. cbv zeta.
  unfold run, run_try, bind, client_query_raw, lift, set_before, set_after,
    get_before, get_after.
  cbn [init world calls diff actions before after].
  destruct (query_raw C greq w) as [[resp1 | m] w1].
  2:{ left. reflexivity. }
  destruct (subscript resp1 "metadata") as [m1 | e].
  2:{ left. destruct e; reflexivity. }
  cbn [diff world calls actions before after].
  destruct (_incus_to_module_state resp1) as [st1 | e].
  2:{ left. destruct e; reflexivity. }
  cbn [diff world calls actions before after].
  match goal with
  | |- context [action ?s] =>
      right; exists s; split; [ reflexivity | ];
      destruct (action s) as [[v | e] s2]
  end.
  2:{ destruct e; reflexivity. }
  cbn [snd].
  destruct (query_raw C greq (world s2)) as [[resp2 | m] w3].
  2:{ reflexivity. }
  destruct (subscript resp2 "metadata") as [m2 | e].
  2:{ destruct e; reflexivity. }
  cbn [diff world calls actions before after].
  destruct (_incus_to_module_state resp2) as [st2 | e].
  2:{ destruct e; reflexivity. }
  cbn [diff world calls actions before after].
  repeat match goal with
         | |- context [subscript ?d ?k] => destruct (subscript d k) as [? | []]
         end;
    reflexivity.
Qed.

End RunActions.

(** What a handler does to the action log. *)
Lemma converge_actions :
  forall repr_str C module mg (s : self_t C),
    actions (snd (converge repr_str C module mg s)) = actions s
    \/ (is_peer mg = true
        /\ exists a, In a ["create"; "update"; "delete"]
                     /\ actions (snd (converge repr_str C module mg s))
                        = (actions s ++ [a])%list).
Proof.
  intros q C module [p | p | p | p | p] s; unfold converge;
    unfold Acl.action, Zone.action, Peer.action, Forward.action,
      LoadBalancer.action;
    match goal with
    | |- context [match ?st with present => _ | absent => _ end] =>
        destruct st
    end;
    handler_unfold; handler_split; cbn [snd actions];
    try (left; reflexivity);
    right; (split; [ reflexivity | ]);
    eexists; (split; [ | reflexivity ]); cbn [In]; auto.
Qed.

(** X9. The action log at the end of a run: always empty outside the peer
    module, and in the peer module empty or one entry among 'create',
    'update' and 'delete'. *)
Theorem action_log_at_most_one_entry :
  forall repr_str C module mg (w : World C),
    let acts := actions (snd (run_manager repr_str C module mg (init C w))) in
    (is_peer mg = false -> acts = [])
    /\ (acts = [] \/ exists a, In a ["create"; "update"; "delete"]
                               /\ acts = [a]).
Proof.
  intros q C module mg w. cbv zeta. rewrite run_manager_unfold.
  destruct (@run_actions C module (result_key mg) (fetch_request mg)
              (converge q C module mg) w) as [H | (s1 & Hs1 & H)];
    rewrite H.
  - split; [ reflexivity | left; reflexivity ].
  - destruct (@converge_actions q C module mg s1)
      as [Hc | (Hp & a & Ha & Hc)]; rewrite Hc, Hs1; cbn [app].
    + split; [ reflexivity | left; reflexivity ].
    + split; [ rewrite Hp; discriminate | right; exists a; auto ].
Qed.

Lemma action_log_at_most_one_entry_witness :
  actions (snd (run_manager quote scripted normal_mode
                  (ForwardManagement (forward1 present))
                  (init scripted [inl not_found; inl created;
                                  inl (found (PList []))])))
  = [].
Proof.
  apply (proj1 (@action_log_at_most_one_entry quote scripted normal_mode
                  (ForwardManagement (forward1 present))
                  [inl not_found; inl created; inl (found (PList []))])).
  reflexivity.
Defined.

(** ** Edges of [run] *)

(** X10. A run whose write was accepted and whose second fetch then raised
    ends through [fail_json] with [changed=False] and a diff that holds the
    first metadata and state under [before] and nothing under [after],
    although the remote side took the write. *)
Theorem accepted_write_then_failed_fetch :
  forall repr_str C module mg (w : World C) resp1 req r m,
    let res := run_manager repr_str C module mg (init C w) in
    calls (snd res)
    = [(fetch_request mg, inl resp1); (req, inl r);
       (fetch_request mg, inr m)] ->
    exists m1 st1,
      readable resp1 m1 st1
      /\ fst res
         = fail_json
             {| msg := m;
                fail_changed := false;
                fail_diff :=
                  {| before := [(result_key mg, m1); ("state", PStr st1)];
                     after := [] |};
                fail_logs :=
                  if debug C then Some (logs C (world (snd res))) else None |}.
Proof.
  intros q C module mg w resp1' req r m res Hcs. subst res.
  run_inversion q C module mg w.
  - rewrite Hres in Hcs. discriminate Hcs.
  - rewrite Hcalls in Hcs. discriminate Hcs.
  - destruct (@handler_trace q C module mg _ _ _ _ _ _ Ha)
      as (mid & Hc & [-> | (req' & ans & -> & _ & _ & _)]);
      rewrite Hres in Hcs; cbn [snd] in Hcs; rewrite Hc in Hcs;
      discriminate Hcs.
  - destruct (@handler_trace q C module mg _ _ _ _ _ _ Ha)
      as (mid & Hc & [-> | (req' & ans & -> & _ & _ & _)]);
      rewrite Hres in *; cbn [fst snd refetched calls world diff] in *;
      rewrite Hc in Hcs; cbn [app] in Hcs; [ discriminate Hcs | ].
    inversion Hcs; subst resp1' req' ans m0; clear Hcs.
    exists m1, st1. split; [ split; assumption | ].
    unfold failure. cbn [diff world refetched].
    pose proof (@converge_keeps_diff q C module mg
                  (fetched C (result_key mg) (fetch_request mg)
                           resp1 m1 st1 w1)) as Hd.
    rewrite Ha in Hd. cbn [snd fetched diff] in Hd.
    rewrite Hd. reflexivity.
  - destruct (@handler_trace q C module mg _ _ _ _ _ _ Ha)
      as (mid & Hc & [-> | (req' & ans & -> & _ & _ & _)]);
      rewrite Hcalls, Hc in Hcs; cbn [app] in Hcs; discriminate Hcs.
  - destruct (@handler_trace q C module mg _ _ _ _ _ _ Ha)
      as (mid & Hc & [-> | (req' & ans & -> & _ & _ & _)]);
      rewrite Hres in Hcs; cbn [snd refetched calls] in Hcs;
      rewrite Hc in Hcs; cbn [app] in Hcs; discriminate Hcs.
Qed.

Lemma accepted_write_then_failed_fetch_witness :
  let mg := AclManagement (acl1 present) in
  let res :=
    run_manager quote scripted normal_mode mg
      (init scripted [inl not_found; inl created; inr "timeout"]) in
  exists m1 st1,
    readable not_found m1 st1
    /\ fst res
       = fail_json
           {| msg := "timeout";
              fail_changed := false;
              fail_diff :=
                {| before := [("acl", m1); ("state", PStr st1)];
                   after := [] |};
              fail_logs := None |}.
Proof.
  intros mg res.
  exact (@accepted_write_then_failed_fetch quote scripted normal_mode mg
           [inl not_found; inl created; inr "timeout"] not_found
           {| req_method := POST; req_url := "/1.0/network-acls";
              req_payload := Some (Acl.payload (acl1 present));
              req_ok_errors := None |}
           created "timeout" eq_refl).
Defined.

(** X11. A first response without 'metadata' ends the run with
    [KeyError('metadata')] uncaught, and one with 'metadata' but without
    'status_code' with [KeyError('status_code')]; in both cases the fetch is
    the only request and no handler ran. *)
Theorem first_response_missing_key :
  forall repr_str C module mg (w : World C) resp1 w1,
    query_raw C (fetch_request mg) w = (inl resp1, w1) ->
    let res := run_manager repr_str C module mg (init C w) in
    (dict_get "metadata" resp1 = None ->
     fst res = uncaught (KeyError "metadata")
     /\ calls (snd res) = [(fetch_request mg, inl resp1)]
     /\ world (snd res) = w1 /\ actions (snd res) = []
     /\ diff (snd res) = {| before := []; after := [] |})
    /\ (forall m1,
           dict_get "metadata" resp1 = Some m1 ->
           dict_get "status_code" resp1 = None ->
           fst res = uncaught (KeyError "status_code")
           /\ calls (snd res) = [(fetch_request mg, inl resp1)]
           /\ world (snd res) = w1 /\ actions (snd res) = []
           /\ diff (snd res)
              = {| before := [(result_key mg, m1)]; after := [] |}).
Proof.
  intros q C module mg w resp1 w1 Q res. subst res.
  rewrite run_manager_unfold.
  unfold run, run_try, bind, client_query_raw, lift.
  cbn [init world calls diff actions]. rewrite Q. split.
  - intros H.
    assert (Hm : subscript resp1 "metadata" = Raise (KeyError "metadata")).
    { unfold subscript. rewrite H. reflexivity. }
    rewrite Hm. repeat split; reflexivity.
  - intros m1 H Hs.
    assert (Hm : subscript resp1 "metadata" = Ok m1).
    { unfold subscript. rewrite H. reflexivity. }
    assert (Hc : _incus_to_module_state resp1
                 = Raise (KeyError "status_code")).
    { unfold _incus_to_module_state, subscript. rewrite Hs. reflexivity. }
    rewrite Hm. unfold set_before at 1.
    cbn [diff world calls actions before after dict_set].
    rewrite Hc. repeat split; reflexivity.
Qed.

Lemma first_response_missing_key_witness :
  let res :=
    run_manager quote scripted normal_mode (ZoneManagement
      {| Zone.name := "example.org"; Zone.project := "default";
         Zone.description := PNone; Zone.config := PNone;
         Zone.state := present |})
      (init scripted [inl [("status_code", PInt 200)]; inl created]) in
  fst res = uncaught (KeyError "metadata")
  /\ length (calls (snd res)) = 1%nat
  /\ world (snd res) = [inl created].
Proof.
  intros res.
  destruct (proj1 (@first_response_missing_key quote scripted normal_mode
                     (ZoneManagement
                        {| Zone.name := "example.org";
                           Zone.project := "default";
                           Zone.description := PNone; Zone.config := PNone;
                           Zone.state := present |})
                     [inl [("status_code", PInt 200)]; inl created]
                     [("status_code", PInt 200)] [inl created] eq_refl)
             eq_refl)
    as (Ho & Hc & Hw & _).
  split; [ exact Ho | split; [ | exact Hw ] ].
  subst res. rewrite Hc. reflexivity.
Defined.

(** X12. [_incus_to_module_state] without its keys: no 'status_code' is a
    [KeyError('status_code')]; a status code other than 200 without
    'error_code' is a [KeyError('error_code')].  It answers nothing but
    "present" and "absent", and it never raises the client's exception. *)
Theorem incus_to_module_state_edges :
  forall resp_json,
    (dict_get "status_code" resp_json = None ->
     _incus_to_module_state resp_json = Raise (KeyError "status_code"))
    /\ (forall status_code,
           dict_get "status_code" resp_json = Some status_code ->
           status_code <> PInt 200 ->
           dict_get "error_code" resp_json = None ->
           _incus_to_module_state resp_json = Raise (KeyError "error_code"))
    /\ (forall st,
           _incus_to_module_state resp_json = Ok st ->
           st = "present" \/ st = "absent")
    /\ (forall m,
           _incus_to_module_state resp_json
           <> Raise (IncusClientException m)).
Proof.
  intros resp. split; [ | split; [ | split ] ].
  - intros H. unfold _incus_to_module_state, subscript. rewrite H.
    reflexivity.
  - intros sc Hsc Hne Hec. unfold _incus_to_module_state, subscript.
    rewrite Hsc, Hec.
    destruct (py_eq sc (PInt 200)) eqn:E; [ | reflexivity ].
    apply py_eq_int in E; [ contradiction | lia | lia ].
  - intros st. apply classify_range.
  - intros m. apply classify_not_client_exception.
Qed.

Lemma incus_to_module_state_edges_witness :
  _incus_to_module_state [("metadata", PNone)]
  = Raise (KeyError "status_code")
  /\ _incus_to_module_state [("status_code", PInt 404); ("metadata", PNone)]
     = Raise (KeyError "error_code").
Proof.
  split.
  - apply (proj1 (incus_to_module_state_edges [("metadata", PNone)])).
    reflexivity.
  - apply (proj1 (proj2 (incus_to_module_state_edges
                           [("status_code", PInt 404); ("metadata", PNone)]))
             (PInt 404)).
    + reflexivity.
    + discriminate.
    + reflexivity.
Defined.

(** X13. What [exit_json] receives: the verbosity of the module, the diff of
    the object as it stands, under the kind's key the metadata of the
    second fetch, as [old_state] the state recorded for the first fetch,
    "present" or "absent", and the client's logs exactly when the verbosity
    is at least 3. *)
Theorem exit_result_contents :
  forall repr_str C module mg (w : World C) r s',
    run_manager repr_str C module mg (init C w) = (exit_json r, s') ->
    log_verbosity r = _verbosity module
    /\ result_diff r = diff s'
    /\ (exists m2,
           resource r = (result_key mg, m2)
           /\ subscript (after (result_diff r)) (result_key mg) = Ok m2)
    /\ subscript (before (result_diff r)) "state" = Ok (old_state r)
    /\ (old_state r = PStr "present" \/ old_state r = PStr "absent")
    /\ (exists st2,
           subscript (after (result_diff r)) "state" = Ok (PStr st2)
           /\ (st2 = "present" \/ st2 = "absent"))
    /\ result_logs r
       = (if 3 <=? _verbosity module then Some (logs C (world s')) else None).
Proof.
  intros q C module mg w r s' Hrun.
  assert (Hk : String.eqb "state" (result_key mg) = false).
  { apply String.eqb_neq. intros H. symmetry in H.
    exact (result_key_not_state _ H). }
  run_inversion q C module mg w;
    rewrite Hrun in Hres; cbn [fst] in Hres; try discriminate.
  - destruct e; discriminate.
  - inversion Hres; subst r s'; clear Hres.
    cbn [log_verbosity result_diff resource old_state result_logs refetched
         diff world before after d].
    unfold subscript. cbn [dict_get]. rewrite Hk, !String.eqb_refl.
    split; [ reflexivity | split; [ reflexivity | split ] ].
    + exists m2. split; reflexivity.
    + split; [ reflexivity | split; [ | split ] ].
      * destruct (classify_range _ Hs1) as [-> | ->]; auto.
      * exists st2. split; [ reflexivity | exact (classify_range _ Hs2) ].
      * reflexivity.
Qed.

Lemma exit_result_contents_witness :
  let mg := AclManagement (acl1 present) in
  let module := {| check_mode := false; _verbosity := 3 |} in
  let script := [inl not_found; inl created; inl (found acl1_metadata)] in
  exists r s',
    run_manager quote scripted module mg (init scripted script)
    = (exit_json r, s')
    /\ log_verbosity r = 3
    /\ result_diff r = diff s'
    /\ (exists m2,
           resource r = ("acl", m2)
           /\ subscript (after (result_diff r)) "acl" = Ok m2)
    /\ subscript (before (result_diff r)) "state" = Ok (old_state r)
    /\ (old_state r = PStr "present" \/ old_state r = PStr "absent")
    /\ (exists st2,
           subscript (after (result_diff r)) "state" = Ok (PStr st2)
           /\ (st2 = "present" \/ st2 = "absent"))
    /\ result_logs r = Some (logs scripted (world s')).
Proof.
  intros mg module script.
  destruct (run_manager quote scripted module mg (init scripted script))
    as [o s'] eqn:E.
  destruct o as [r | f | e]; try (vm_compute in E; discriminate E).
  exists r, s'. split; [ reflexivity | ].
  exact (@exit_result_contents quote scripted module mg script r s' E).
Defined.

(** ** More on the payload of the load balancer *)

Lemma ports_payload_all_present :
  forall q ports,
    Forall has_listen_port ports ->
    exists ps, LoadBalancer.ports_payload q ports = Ok ps.
Proof.
  intros q ports H. induction H as [ | port ports Hp _ (ps & IH) ];
    cbn [LoadBalancer.ports_payload].
  - eexists. reflexivity.
  - unfold LoadBalancer.port_payload, subscript. unfold has_listen_port in Hp.
    destruct (dict_get "listen_port" port); [ | contradiction ].
    rewrite IH. eexists. reflexivity.
Qed.

(** X14. The load balancer builds its payload exactly when every port has a
    'listen_port'; when some port lacks it the construction raises
    [KeyError('listen_port')], and it raises nothing else. *)
Theorem load_balancer_payload_ok_iff :
  forall repr_str self,
    ((exists d, LoadBalancer.payload repr_str self = Ok d)
     <-> Forall has_listen_port (LoadBalancer.ports self))
    /\ (LoadBalancer.payload repr_str self = Raise (KeyError "listen_port")
        <-> Exists (fun port => dict_get "listen_port" port = None)
                   (LoadBalancer.ports self))
    /\ (forall e, LoadBalancer.payload repr_str self = Raise e ->
                  e = KeyError "listen_port").
Proof.
  intros q self.
  assert (Hdec : Forall has_listen_port (LoadBalancer.ports self)
                 \/ Exists (fun port => dict_get "listen_port" port = None)
                           (LoadBalancer.ports self)).
  { induction (LoadBalancer.ports self) as [ | port ports [IH | IH] ].
    - left. constructor.
    - destruct (dict_get "listen_port" port) eqn:E.
      + left. constructor; [ unfold has_listen_port; congruence | exact IH ].
      + right. apply Exists_cons_hd. exact E.
    - right. apply Exists_cons_tl. exact IH. }
  assert (Hok : Forall has_listen_port (LoadBalancer.ports self) ->
                exists d, LoadBalancer.payload q self = Ok d).
  { intros H. unfold LoadBalancer.payload. rewrite self_ports_eq.
    destruct (ports_payload_all_present q H) as (ps & ->).
    eexists. reflexivity. }
  assert (Hko : Exists (fun port => dict_get "listen_port" port = None)
                       (LoadBalancer.ports self) ->
                LoadBalancer.payload q self = Raise (KeyError "listen_port")).
  { intros H. unfold LoadBalancer.payload. rewrite self_ports_eq.
    rewrite (ports_payload_missing_key q H). reflexivity. }
  split; [ | split ].
  - split; [ | exact Hok ].
    intros (d & Hd). destruct Hdec as [H | H]; [ exact H | ].
    rewrite (Hko H) in Hd. discriminate.
  - split; [ | exact Hko ].
    intros He. destruct Hdec as [H | H]; [ | exact H ].
    destruct (Hok H) as (d & Hd). rewrite Hd in He. discriminate.
  - intros e. apply payload_raises.
Qed.

Lemma dict_set_idempotent :
  forall k v d, dict_set k v (dict_set k v d) = dict_set k v d.
Proof.
  intros k v d. induction d as [ | [k' v'] d IH ]; cbn [dict_set].
  - rewrite String.eqb_refl. reflexivity.
  - destruct (String.eqb k k') eqn:E; cbn [dict_set]; rewrite E.
    + reflexivity.
    + rewrite IH. reflexivity.
Qed.

(** X15. The coercion of the ports is idempotent: the ports the load
    balancer puts in its payload, given back as its ports, come out
    unchanged, since [str] of a string is that string. *)
Theorem ports_payload_idempotent :
  forall repr_str ports ports',
    LoadBalancer.ports_payload repr_str ports = Ok (map PDict ports') ->
    LoadBalancer.ports_payload repr_str ports' = Ok (map PDict ports').
Proof.
  intros q ports ports' H.
  destruct (ports_payload_ok _ _ H) as (ports'' & Heq & HF).
  assert (ports'' = ports').
  { clear - Heq. revert ports' Heq.
    induction ports'' as [ | p l IH ]; intros [ | p' l'] Heq;
      cbn [map] in Heq; try discriminate; [ reflexivity | ].
    inversion Heq; subst. f_equal. apply IH. assumption. }
  subst ports''. clear H Heq.
  induction HF as [ | port port' l l' (v & Hv & ->) _ IH ];
    cbn [LoadBalancer.ports_payload map].
  - reflexivity.
  - unfold LoadBalancer.port_payload at 1. unfold subscript.
    rewrite dict_get_set_same. cbn [py_str].
    rewrite dict_set_idempotent, IH. reflexivity.
Qed.

Lemma ports_payload_idempotent_witness :
  LoadBalancer.ports_payload quote
    [dict_set "listen_port" (PStr "22") ssh_port]
  = Ok (map PDict [dict_set "listen_port" (PStr "22") ssh_port]).
Proof.
  apply (@ports_payload_idempotent quote [ssh_port]).
  reflexivity.
Defined.

Lemma load_balancer_payload_ok_iff_witness :
  (exists d, LoadBalancer.payload quote (lb1 [ssh_port]) = Ok d)
  /\ LoadBalancer.payload quote (lb1 [nameless_port])
     = Raise (KeyError "listen_port").
Proof.
  split.
  - apply (proj1 (@load_balancer_payload_ok_iff quote (lb1 [ssh_port]))).
    repeat constructor. discriminate.
  - apply (proj1 (proj2 (@load_balancer_payload_ok_iff quote
                           (lb1 [nameless_port])))).
    apply Exists_cons_hd. reflexivity.
Defined.

Lemma peer_payload_optional_fields_witness :
  dict_get "target_project" (Peer.payload (peer1 present))
  = Some (PStr "default")
  /\ dict_get "type" (Peer.payload (peer1 present)) <> Some PNone.
Proof.
  destruct (peer_payload_optional_fields (peer1 present))
    as (_ & _ & _ & _ & Hp & _ & _ & Hn).
  split.
  - exact Hp.
  - apply Hn. right. right. right. left. reflexivity.
Defined.
